(** * servergem-v5: the WebSocket transport client and the progress interpreter

    A shallow embedding of
    - [src/lib/websocket/WebSocketClient.ts]  (class [WebSocketClient]),
    - [src/lib/websocket/config.ts]           ([WS_CONFIG], [getSessionId]),
    - the deployment log parser               ([parseBackendLog]),
    followed by the properties of the specification that concern them.

    Conventions of the embedding.
    - JavaScript numbers are exact rationals ([Q]); counters that the code only
      increments and compares are [nat].
    - JavaScript strings are Rocq strings holding the UTF-8 bytes of the text.
      Every literal of the source is well-formed text, and UTF-8 is
      self-synchronising, so [String.prototype.includes] is the byte-level
      substring test.
    - The client object, the browser's timer table, the sockets it has created
      and [localStorage] form one record, [World]; every method of the class is
      a function on it.  A method that may raise returns a [Result] next to
      the world.
    - What the caller and the browser decide (a call of the public API; a
      socket opens, closes, delivers data; a timer comes due) is an [Event];
      a run is a list of events with the instants at which they happen, and
      [realizable] checks that the instants are those the timer table allows.
    - Handlers registered by the application are observers: a call of a
      handler is recorded, and the handler does not call back into the client.
    - [console.log] and friends are not modelled. *)

From Stdlib Require Import QArith Qminmax Qpower ZArith Lia Lqa.
From Stdlib Require Import Ascii String DecimalString.
From stdpp Require Import base option list strings gmap.

Local Open Scope string_scope.
Local Open Scope list_scope.

(** ** Types of [@/types/websocket], as the client uses them *)

(** Modelled from the spec: [ConnectionState] is declared in
    [@/types/websocket]; the six states are those of the specification's
    data model and of the literals the client passes to
    [updateConnectionStatus]. *)
Inductive ConnectionState :=
  | Idle | Connecting | Connected | Reconnecting | Disconnected | Error.

#[global] Instance ConnectionState_eq_dec : EqDecision ConnectionState.
Proof. solve_decision. Defined.

Record ConnectionStatus := mkStatus {
  state : ConnectionState;
  error : option string;
  reconnectAttempt : option nat;
  lastConnected : option Q;
}.

Record ReconnectConfig := mkReconnect {
  rc_enabled : bool;
  maxAttempts : nat;
  initialDelay : Q;
  maxDelay : Q;
  backoffMultiplier : Q;
}.

Record HeartbeatConfig := mkHeartbeat {
  hb_enabled : bool;
  interval : Q;
  timeout : Q;
}.

Record QueueConfig := mkQueue {
  mq_enabled : bool;
  maxSize : nat;
}.

Record WebSocketConfig := mkConfig {
  url : string;
  reconnect : ReconnectConfig;
  heartbeat : HeartbeatConfig;
  messageQueueCfg : QueueConfig;
}.

(** [Partial<WebSocketConfig>]: every top-level key may be absent. *)
Record PartialConfig := mkPartial {
  p_url : option string;
  p_reconnect : option ReconnectConfig;
  p_heartbeat : option HeartbeatConfig;
  p_messageQueue : option QueueConfig;
}.

(** [{ ...WS_CONFIG, ...config }]: a shallow merge, key by key. *)
Definition merge_config (base : WebSocketConfig) (o : PartialConfig) : WebSocketConfig :=
  {| url := default (url base) (p_url o);
     reconnect := default (reconnect base) (p_reconnect o);
     heartbeat := default (heartbeat base) (p_heartbeat o);
     messageQueueCfg := default (messageQueueCfg base) (p_messageQueue o) |}.

(** [WS_CONFIG] of config.ts; the URL is what [getWebSocketUrl] returned. *)
Definition WS_CONFIG (ws_url : string) : WebSocketConfig :=
  {| url := ws_url;
     reconnect := {| rc_enabled := true; maxAttempts := 10;
                     initialDelay := 1000; maxDelay := 30000;
                     backoffMultiplier := 3 # 2 |};
     heartbeat := {| hb_enabled := true; interval := 30000; timeout := 5000 |};
     messageQueueCfg := {| mq_enabled := true; maxSize := 50 |} |}.

(** Outbound messages.  [ClientMessage] is declared in [@/types/websocket];
    the client itself builds [init] and [ping], anything else comes from the
    caller of [sendMessage].  Timestamps ([new Date().toISOString()]) are kept
    as the instant they denote. *)
Inductive ClientMessage :=
  | MsgInit (session_id instance_id : string) (is_reconnect : bool)
            (userAgent : string) (timestamp : Q)
  | MsgPing (timestamp : Q)
  | MsgOther (type : string) (payload : string).

(** Inbound messages: the client looks at [message.type] only. *)
Record ServerMessage := mkServerMessage {
  sm_type : string;
  sm_body : string;
}.

(** ** Reconnection backoff *)

(** [calculateBackoffDelay], as a function of the configuration and of
    [this.reconnectAttempts]. *)
Definition calculateBackoffDelay (c : ReconnectConfig) (reconnectAttempts : nat) : Q :=
  let delay := (initialDelay c * backoffMultiplier c ^ (Z.of_nat reconnectAttempts - 1))%Q in
  Qmin delay (maxDelay c).

(** ** The browser side: sockets, timers, observers *)

Inductive Result (A : Type) :=
  | Return (a : A)
  | Throw (msg : string).
Arguments Return {A} a.
Arguments Throw {A} msg.

(** What the client takes from its host: [JSON.stringify] (the serialised
    text, or the message of the exception it raises), whether
    [new WebSocket(url)] throws (and with what message),
    [encodeURIComponent], and [navigator.userAgent]. *)
Record Host := mkHost {
  JSON_stringify : ClientMessage -> string + string;
  WebSocket_ctor : string -> option string;
  encodeURIComponent : string -> string;
  navigator_userAgent : string;
}.

Inductive ReadyState := CONNECTING | OPEN | CLOSING | CLOSED.

#[global] Instance ReadyState_eq_dec : EqDecision ReadyState.
Proof. solve_decision. Defined.

(** A [WebSocket] object: its URL, its [readyState], and the timer that the
    once-only [open] listener added by [connect] clears. *)
Record Socket := mkSocket {
  s_url : string;
  readyState : ReadyState;
  s_clearOnOpen : option nat;
}.

(** The four callbacks the client hands to [setTimeout] / [setInterval]. *)
Inductive Callback :=
  | ConnectTimeoutCb   (* connect(): the 10 s connection timeout *)
  | ReconnectCb        (* handleReconnect(): () => this.connect() *)
  | HeartbeatCb        (* startHeartbeat(): the setInterval body *)
  | PongTimeoutCb.     (* startHeartbeat(): () => this.ws?.close() *)

#[global] Instance Callback_eq_dec : EqDecision Callback.
Proof. solve_decision. Defined.

(** A pending timer: handle, callback, the instant it is due, and its period
    when it was created by [setInterval]. *)
Record Timer := mkTimer {
  t_id : nat;
  t_cb : Callback;
  t_due : Q;
  t_period : option Q;
}.

(** One call of a registered handler ([h] names the handler). *)
Inductive Notice :=
  | MessageTo (h : nat) (m : ServerMessage)
  | ErrorTo (h : nat) (msg : string)
  | StatusTo (h : nat) (s : ConnectionStatus).

(** The client object (fields [ws] to [connectionChangeHandlers], named as in
    the class; [ws] is the index of the socket in [sockets]), the host state
    it acts on ([now], [timers], [nextTimer], [sockets], [localStorage]) and
    what the client has done to its surroundings, in order: [scheduled] lists
    the calls of [setTimeout] and [setInterval] (handle, callback, delay),
    [wire] the texts given to [ws.send] (with the socket), [delivered] the
    calls of registered handlers.  The client never reads these three. *)
Record World := mkWorld {
  host : Host;
  ws : option nat;
  sessionId : string;
  instanceId : string;
  config : WebSocketConfig;
  connectionStatus : ConnectionStatus;
  reconnectAttempts : nat;
  reconnectTimer : option nat;
  isIntentionalClose : bool;
  heartbeatTimer : option nat;
  heartbeatTimeoutTimer : option nat;
  messageQueue : list ClientMessage;
  messageHandlers : list nat;
  errorHandlers : list nat;
  connectionChangeHandlers : list nat;
  now : Q;
  timers : list Timer;
  nextTimer : nat;
  sockets : list Socket;
  localStorage : gmap string string;
  scheduled : list (nat * Callback * Q);
  wire : list (nat * string);
  delivered : list Notice;
}.

Definition set_ws (v : option nat) (w : World) : World :=
  mkWorld (host w) v (sessionId w) (instanceId w) (config w) (connectionStatus w)
    (reconnectAttempts w) (reconnectTimer w) (isIntentionalClose w) (heartbeatTimer w)
    (heartbeatTimeoutTimer w) (messageQueue w) (messageHandlers w) (errorHandlers w)
    (connectionChangeHandlers w) (now w) (timers w) (nextTimer w) (sockets w)
    (localStorage w) (scheduled w) (wire w) (delivered w).

Definition set_config (v : WebSocketConfig) (w : World) : World :=
  mkWorld (host w) (ws w) (sessionId w) (instanceId w) v (connectionStatus w)
    (reconnectAttempts w) (reconnectTimer w) (isIntentionalClose w) (heartbeatTimer w)
    (heartbeatTimeoutTimer w) (messageQueue w) (messageHandlers w) (errorHandlers w)
    (connectionChangeHandlers w) (now w) (timers w) (nextTimer w) (sockets w)
    (localStorage w) (scheduled w) (wire w) (delivered w).

Definition set_connectionStatus (v : ConnectionStatus) (w : World) : World :=
  mkWorld (host w) (ws w) (sessionId w) (instanceId w) (config w) v
    (reconnectAttempts w) (reconnectTimer w) (isIntentionalClose w) (heartbeatTimer w)
    (heartbeatTimeoutTimer w) (messageQueue w) (messageHandlers w) (errorHandlers w)
    (connectionChangeHandlers w) (now w) (timers w) (nextTimer w) (sockets w)
    (localStorage w) (scheduled w) (wire w) (delivered w).

Definition set_reconnectAttempts (v : nat) (w : World) : World :=
  mkWorld (host w) (ws w) (sessionId w) (instanceId w) (config w) (connectionStatus w) v
    (reconnectTimer w) (isIntentionalClose w) (heartbeatTimer w)
    (heartbeatTimeoutTimer w) (messageQueue w) (messageHandlers w) (errorHandlers w)
    (connectionChangeHandlers w) (now w) (timers w) (nextTimer w) (sockets w)
    (localStorage w) (scheduled w) (wire w) (delivered w).

Definition set_reconnectTimer (v : option nat) (w : World) : World :=
  mkWorld (host w) (ws w) (sessionId w) (instanceId w) (config w) (connectionStatus w)
    (reconnectAttempts w) v (isIntentionalClose w) (heartbeatTimer w)
    (heartbeatTimeoutTimer w) (messageQueue w) (messageHandlers w) (errorHandlers w)
    (connectionChangeHandlers w) (now w) (timers w) (nextTimer w) (sockets w)
    (localStorage w) (scheduled w) (wire w) (delivered w).

Definition set_isIntentionalClose (v : bool) (w : World) : World :=
  mkWorld (host w) (ws w) (sessionId w) (instanceId w) (config w) (connectionStatus w)
    (reconnectAttempts w) (reconnectTimer w) v (heartbeatTimer w)
    (heartbeatTimeoutTimer w) (messageQueue w) (messageHandlers w) (errorHandlers w)
    (connectionChangeHandlers w) (now w) (timers w) (nextTimer w) (sockets w)
    (localStorage w) (scheduled w) (wire w) (delivered w).

Definition set_heartbeatTimer (v : option nat) (w : World) : World :=
  mkWorld (host w) (ws w) (sessionId w) (instanceId w) (config w) (connectionStatus w)
    (reconnectAttempts w) (reconnectTimer w) (isIntentionalClose w) v
    (heartbeatTimeoutTimer w) (messageQueue w) (messageHandlers w) (errorHandlers w)
    (connectionChangeHandlers w) (now w) (timers w) (nextTimer w) (sockets w)
    (localStorage w) (scheduled w) (wire w) (delivered w).

Definition set_heartbeatTimeoutTimer (v : option nat) (w : World) : World :=
  mkWorld (host w) (ws w) (sessionId w) (instanceId w) (config w) (connectionStatus w)
    (reconnectAttempts w) (reconnectTimer w) (isIntentionalClose w) (heartbeatTimer w) v
    (messageQueue w) (messageHandlers w) (errorHandlers w) (connectionChangeHandlers w)
    (now w) (timers w) (nextTimer w) (sockets w) (localStorage w) (scheduled w) (wire w)
    (delivered w).

Definition set_messageQueue (v : list ClientMessage) (w : World) : World :=
  mkWorld (host w) (ws w) (sessionId w) (instanceId w) (config w) (connectionStatus w)
    (reconnectAttempts w) (reconnectTimer w) (isIntentionalClose w) (heartbeatTimer w)
    (heartbeatTimeoutTimer w) v (messageHandlers w) (errorHandlers w)
    (connectionChangeHandlers w) (now w) (timers w) (nextTimer w) (sockets w)
    (localStorage w) (scheduled w) (wire w) (delivered w).

Definition set_messageHandlers (v : list nat) (w : World) : World :=
  mkWorld (host w) (ws w) (sessionId w) (instanceId w) (config w) (connectionStatus w)
    (reconnectAttempts w) (reconnectTimer w) (isIntentionalClose w) (heartbeatTimer w)
    (heartbeatTimeoutTimer w) (messageQueue w) v (errorHandlers w)
    (connectionChangeHandlers w) (now w) (timers w) (nextTimer w) (sockets w)
    (localStorage w) (scheduled w) (wire w) (delivered w).

Definition set_errorHandlers (v : list nat) (w : World) : World :=
  mkWorld (host w) (ws w) (sessionId w) (instanceId w) (config w) (connectionStatus w)
    (reconnectAttempts w) (reconnectTimer w) (isIntentionalClose w) (heartbeatTimer w)
    (heartbeatTimeoutTimer w) (messageQueue w) (messageHandlers w) v
    (connectionChangeHandlers w) (now w) (timers w) (nextTimer w) (sockets w)
    (localStorage w) (scheduled w) (wire w) (delivered w).

Definition set_connectionChangeHandlers (v : list nat) (w : World) : World :=
  mkWorld (host w) (ws w) (sessionId w) (instanceId w) (config w) (connectionStatus w)
    (reconnectAttempts w) (reconnectTimer w) (isIntentionalClose w) (heartbeatTimer w)
    (heartbeatTimeoutTimer w) (messageQueue w) (messageHandlers w) (errorHandlers w) v
    (now w) (timers w) (nextTimer w) (sockets w) (localStorage w) (scheduled w) (wire w)
    (delivered w).

Definition set_now (v : Q) (w : World) : World :=
  mkWorld (host w) (ws w) (sessionId w) (instanceId w) (config w) (connectionStatus w)
    (reconnectAttempts w) (reconnectTimer w) (isIntentionalClose w) (heartbeatTimer w)
    (heartbeatTimeoutTimer w) (messageQueue w) (messageHandlers w) (errorHandlers w)
    (connectionChangeHandlers w) v (timers w) (nextTimer w) (sockets w) (localStorage w)
    (scheduled w) (wire w) (delivered w).

Definition set_timers (v : list Timer) (w : World) : World :=
  mkWorld (host w) (ws w) (sessionId w) (instanceId w) (config w) (connectionStatus w)
    (reconnectAttempts w) (reconnectTimer w) (isIntentionalClose w) (heartbeatTimer w)
    (heartbeatTimeoutTimer w) (messageQueue w) (messageHandlers w) (errorHandlers w)
    (connectionChangeHandlers w) (now w) v (nextTimer w) (sockets w) (localStorage w)
    (scheduled w) (wire w) (delivered w).

Definition set_nextTimer (v : nat) (w : World) : World :=
  mkWorld (host w) (ws w) (sessionId w) (instanceId w) (config w) (connectionStatus w)
    (reconnectAttempts w) (reconnectTimer w) (isIntentionalClose w) (heartbeatTimer w)
    (heartbeatTimeoutTimer w) (messageQueue w) (messageHandlers w) (errorHandlers w)
    (connectionChangeHandlers w) (now w) (timers w) v (sockets w) (localStorage w)
    (scheduled w) (wire w) (delivered w).

Definition set_sockets (v : list Socket) (w : World) : World :=
  mkWorld (host w) (ws w) (sessionId w) (instanceId w) (config w) (connectionStatus w)
    (reconnectAttempts w) (reconnectTimer w) (isIntentionalClose w) (heartbeatTimer w)
    (heartbeatTimeoutTimer w) (messageQueue w) (messageHandlers w) (errorHandlers w)
    (connectionChangeHandlers w) (now w) (timers w) (nextTimer w) v (localStorage w)
    (scheduled w) (wire w) (delivered w).

Definition set_scheduled (v : list (nat * Callback * Q)) (w : World) : World :=
  mkWorld (host w) (ws w) (sessionId w) (instanceId w) (config w) (connectionStatus w)
    (reconnectAttempts w) (reconnectTimer w) (isIntentionalClose w) (heartbeatTimer w)
    (heartbeatTimeoutTimer w) (messageQueue w) (messageHandlers w) (errorHandlers w)
    (connectionChangeHandlers w) (now w) (timers w) (nextTimer w) (sockets w)
    (localStorage w) v (wire w) (delivered w).

Definition set_wire (v : list (nat * string)) (w : World) : World :=
  mkWorld (host w) (ws w) (sessionId w) (instanceId w) (config w) (connectionStatus w)
    (reconnectAttempts w) (reconnectTimer w) (isIntentionalClose w) (heartbeatTimer w)
    (heartbeatTimeoutTimer w) (messageQueue w) (messageHandlers w) (errorHandlers w)
    (connectionChangeHandlers w) (now w) (timers w) (nextTimer w) (sockets w)
    (localStorage w) (scheduled w) v (delivered w).

Definition set_delivered (v : list Notice) (w : World) : World :=
  mkWorld (host w) (ws w) (sessionId w) (instanceId w) (config w) (connectionStatus w)
    (reconnectAttempts w) (reconnectTimer w) (isIntentionalClose w) (heartbeatTimer w)
    (heartbeatTimeoutTimer w) (messageQueue w) (messageHandlers w) (errorHandlers w)
    (connectionChangeHandlers w) (now w) (timers w) (nextTimer w) (sockets w)
    (localStorage w) (scheduled w) (wire w) v.

(** *** Host operations *)

(** [setTimeout(cb, delay)]: a fresh handle, due [delay] from now. *)
Definition setTimeout (cb : Callback) (delay : Q) (w : World) : nat * World :=
  let id := nextTimer w in
  (id, set_nextTimer (S id)
         (set_timers (timers w ++ [mkTimer id cb (now w + delay)%Q None])
            (set_scheduled (scheduled w ++ [(id, cb, delay)]) w))).

(** [setInterval(cb, period)]. *)
Definition setInterval (cb : Callback) (period : Q) (w : World) : nat * World :=
  let id := nextTimer w in
  (id, set_nextTimer (S id)
         (set_timers (timers w ++ [mkTimer id cb (now w + period)%Q (Some period)])
            (set_scheduled (scheduled w ++ [(id, cb, period)]) w))).

(** [clearTimeout(id)] and [clearInterval(id)]. *)
Definition clearTimeout (id : nat) (w : World) : World :=
  set_timers (filter (fun t => t_id t <> id) (timers w)) w.

Definition socket_state (w : World) (id : nat) : option ReadyState :=
  readyState <$> sockets w !! id.

(** [socket.close()]: a socket that is connecting or open starts closing;
    the [close] event comes later, from the browser. *)
Definition close_socket (s : Socket) : Socket :=
  match readyState s with
  | CONNECTING | OPEN => mkSocket (s_url s) CLOSING (s_clearOnOpen s)
  | CLOSING | CLOSED => s
  end.

Definition ws_close (id : nat) (w : World) : World :=
  set_sockets (alter close_socket id (sockets w)) w.

Definition set_readyState (id : nat) (r : ReadyState) (w : World) : World :=
  set_sockets (alter (fun s => mkSocket (s_url s) r (s_clearOnOpen s)) id (sockets w)) w.

(** *** Observers *)

(** [Set.prototype.add] and [Set.prototype.delete] on a set kept in
    insertion order. *)
Definition set_add (h : nat) (l : list nat) : list nat :=
  if bool_decide (h ∈ l) then l else l ++ [h].

Definition set_delete (h : nat) (l : list nat) : list nat :=
  filter (fun x => x <> h) l.

(** [emitError]: every registered error handler is called (a handler that
    throws is caught and does not stop the others). *)
Definition emitError (msg : string) (w : World) : World :=
  set_delivered (delivered w ++ map (fun h => ErrorTo h msg) (errorHandlers w)) w.

(** [updateConnectionStatus(state, error?, reconnectAttempt?)]. *)
Definition updateConnectionStatus (st : ConnectionState) (err : option string)
    (attempt : option nat) (w : World) : World :=
  let cs := {| state := st;
               error := err;
               reconnectAttempt := attempt;
               lastConnected := match st with
                                | Connected => Some (now w)
                                | _ => lastConnected (connectionStatus w)
                                end |} in
  set_delivered (delivered w ++ map (fun h => StatusTo h cs) (connectionChangeHandlers w))
    (set_connectionStatus cs w).

(** ** The methods of [WebSocketClient] *)

(** [isConnected()]: [this.ws?.readyState === WebSocket.OPEN]. *)
Definition isConnected (w : World) : bool :=
  match ws w with
  | Some id => bool_decide (socket_state w id = Some OPEN)
  | None => false
  end.

(** [queueMessage]. *)
Definition queueMessage (m : ClientMessage) (w : World) : World :=
  let q := if bool_decide (maxSize (messageQueueCfg (config w)) <= length (messageQueue w))%nat
           then tail (messageQueue w)            (* this.messageQueue.shift() *)
           else messageQueue w in
  set_messageQueue (q ++ [m]) w.

(** [sendMessage]: the value returned to the caller, or the exception raised
    to it, and the world afterwards. *)
Definition sendMessage (m : ClientMessage) (w : World) : Result bool * World :=
  let not_open :=
    if mq_enabled (messageQueueCfg (config w))
    then (Return false, queueMessage m w)
    else (Throw "WebSocket not connected and message queue disabled", w) in
  match ws w with
  | None => not_open
  | Some id =>
      if bool_decide (socket_state w id = Some OPEN)
      then match JSON_stringify (host w) m with
           | inl data => (Return true, set_wire (wire w ++ [(id, data)]) w)
           | inr e => (Return false, emitError e w)
           end
      else not_open
  end.

(** [queue.forEach(message => this.sendMessage(message))]: an exception
    leaves the loop. *)
Fixpoint forEach_send (queue : list ClientMessage) (w : World) : Result unit * World :=
  match queue with
  | [] => (Return tt, w)
  | m :: queue' =>
      match sendMessage m w with
      | (Return _, w') => forEach_send queue' w'
      | (Throw e, w') => (Throw e, w')
      end
  end.

(** [flushMessageQueue]. *)
Definition flushMessageQueue (w : World) : Result unit * World :=
  match messageQueue w with
  | [] => (Return tt, w)
  | _ => let queue := messageQueue w in
         forEach_send queue (set_messageQueue [] w)
  end.

(** [stopHeartbeat]. *)
Definition stopHeartbeat (w : World) : World :=
  let w1 := match heartbeatTimer w with
            | Some id => set_heartbeatTimer None (clearTimeout id w)
            | None => w
            end in
  match heartbeatTimeoutTimer w1 with
  | Some id => set_heartbeatTimeoutTimer None (clearTimeout id w1)
  | None => w1
  end.

(** [startHeartbeat]: the interval is the literal 15000 of the source. *)
Definition startHeartbeat (w : World) : World :=
  let w1 := stopHeartbeat w in
  let '(id, w2) := setInterval HeartbeatCb 15000 w1 in
  set_heartbeatTimer (Some id) w2.

(** The body of the [setInterval] callback of [startHeartbeat]; the pong
    timeout is the literal 30000 of the source. *)
Definition heartbeat_callback (w : World) : World :=
  if isConnected w then
    match sendMessage (MsgPing (now w)) w with
    | (Return _, w1) =>
        let '(id, w2) := setTimeout PongTimeoutCb 30000 w1 in
        set_heartbeatTimeoutTimer (Some id) w2
    | (Throw _, w1) => w1
    end
  else w.

(** The pong-timeout callback: [this.ws?.close()]. *)
Definition pong_timeout_callback (w : World) : World :=
  match ws w with
  | Some id => ws_close id w
  | None => w
  end.

(** [handlePong]. *)
Definition handlePong (w : World) : World :=
  match heartbeatTimeoutTimer w with
  | Some id => set_heartbeatTimeoutTimer None (clearTimeout id w)
  | None => w
  end.

(** [handleReconnect]. *)
Definition handleReconnect (w : World) : World :=
  let rc := reconnect (config w) in
  if negb (rc_enabled rc) || isIntentionalClose w then w
  else if bool_decide (maxAttempts rc <= reconnectAttempts w)%nat then
    updateConnectionStatus Error (Some "Max reconnection attempts reached") None w
  else
    let w1 := set_reconnectAttempts (S (reconnectAttempts w)) w in
    let delay := calculateBackoffDelay rc (reconnectAttempts w1) in
    let '(id, w2) := setTimeout ReconnectCb delay w1 in
    let w3 := set_reconnectTimer (Some id) w2 in
    updateConnectionStatus Reconnecting None (Some (reconnectAttempts w3)) w3.

(** [connect()].  The [try] block reads the API key, builds the URL, creates
    the socket, sets the 10 s connection timeout and registers the once-only
    [open] listener that clears it; the [catch] block runs when the
    constructor throws. *)
Definition connect (w : World) : World :=
  match ws w ≫= socket_state w with
  | Some OPEN => w                       (* already connected *)
  | Some CONNECTING => w                 (* connection already in progress *)
  | _ =>
      let w1 := set_isIntentionalClose false w in
      let w2 := updateConnectionStatus Connecting None None w1 in
      let apiKey := default "" (localStorage w2 !! "servergemApiKey") in
      let url := if bool_decide (apiKey = "") then url (config w2)
                 else url (config w2) +:+ "?api_key=" +:+ encodeURIComponent (host w2) apiKey in
      match WebSocket_ctor (host w2) url with
      | Some msg =>
          handleReconnect (emitError msg (updateConnectionStatus Error (Some msg) None w2))
      | None =>
          let id := length (sockets w2) in
          let '(tid, w3) := setTimeout ConnectTimeoutCb 10000 w2 in
          set_ws (Some id)
            (set_sockets (sockets w3 ++ [mkSocket url CONNECTING (Some tid)]) w3)
      end
  end.

(** The connection-timeout callback of [connect]. *)
Definition connect_timeout_callback (w : World) : World :=
  match state (connectionStatus w) with
  | Connecting =>
      let w1 := match ws w with Some id => ws_close id w | None => w end in
      handleReconnect w1
  | _ => w
  end.

(** [handleOpen]. *)
Definition handleOpen (w : World) : Result unit * World :=
  let wasReconnect := bool_decide (0 < reconnectAttempts w)%nat in
  let w1 := set_reconnectAttempts 0 w in
  let w2 := updateConnectionStatus Connected None
              (Some (if wasReconnect then 1 else 0)%nat) w1 in
  match sendMessage (MsgInit (sessionId w2) (instanceId w2) wasReconnect
                       (navigator_userAgent (host w2)) (now w2)) w2 with
  | (Throw e, w3) => (Throw e, w3)
  | (Return _, w3) =>
      let w4 := if hb_enabled (heartbeat (config w3)) then startHeartbeat w3 else w3 in
      match messageQueue w4 with
      | [] => (Return tt, w4)
      | _ => flushMessageQueue w4
      end
  end.

(** [handleMessage]; [parsed] is the outcome of [JSON.parse(event.data)]
    ([None] when it throws). *)
Definition handleMessage (parsed : option ServerMessage) (w : World) : World :=
  match parsed with
  | None => emitError "Failed to parse server message" w
  | Some message =>
      if bool_decide (sm_type message = "pong") then handlePong w
      else set_delivered
             (delivered w ++ map (fun h => MessageTo h message) (messageHandlers w)) w
  end.

(** [handleError]. *)
Definition handleError (w : World) : World :=
  emitError "WebSocket connection error" w.

(** [handleClose]. *)
Definition handleClose (w : World) : World :=
  let w1 := stopHeartbeat w in
  if negb (isIntentionalClose w1) then
    handleReconnect (updateConnectionStatus Reconnecting None None w1)
  else
    updateConnectionStatus Disconnected None None w1.

(** [cleanup]. *)
Definition cleanup (w : World) : World :=
  let w1 := stopHeartbeat w in
  let w2 := match reconnectTimer w1 with
            | Some id => set_reconnectTimer None (clearTimeout id w1)
            | None => w1
            end in
  match ws w2 with
  | Some id => set_ws None (ws_close id w2)
  | None => w2
  end.

(** [disconnect()]. *)
Definition disconnect (w : World) : World :=
  updateConnectionStatus Disconnected None None
    (cleanup (set_isIntentionalClose true w)).

(** [destroy()]. *)
Definition destroy (w : World) : World :=
  let w1 := cleanup (set_isIntentionalClose true w) in
  set_messageQueue []
    (set_connectionChangeHandlers []
       (set_errorHandlers [] (set_messageHandlers [] w1))).

(** ** Events *)

(** Calls of the public API, events of a socket the client created, and a
    timer coming due. *)
Inductive Event :=
  | Connect
  | Disconnect
  | Destroy
  | SendMessage (m : ClientMessage)
  | OnMessage (h : nat)
  | OffMessage (h : nat)
  | OnError (h : nat)
  | OffError (h : nat)
  | OnConnectionChange (h : nat)
  | OffConnectionChange (h : nat)
  | SockOpen (id : nat)
  | SockMessage (id : nat) (parsed : option ServerMessage)
  | SockError (id : nat)
  | SockClose (id : nat)
  | Fire (tid : nat).

Definition find_timer (tid : nat) (w : World) : option Timer :=
  snd <$> list_find (fun t => t_id t = tid) (timers w).

(** Whether the browser can produce the event now: [open] comes from a
    connecting socket, data from an open one, [error] and [close] from one
    that is not closed yet, and only a pending timer fires. *)
Definition enabled (ev : Event) (w : World) : bool :=
  match ev with
  | SockOpen id => bool_decide (socket_state w id = Some CONNECTING)
  | SockMessage id _ => bool_decide (socket_state w id = Some OPEN)
  | SockError id | SockClose id =>
      match socket_state w id with
      | Some CLOSED | None => false
      | Some _ => true
      end
  | Fire tid => bool_decide (is_Some (find_timer tid w))
  | _ => true
  end.

(** A timer that fires: a timeout leaves the table, an interval is due again
    one period later. *)
Definition rearm (t : Timer) (w : World) : World :=
  match t_period t with
  | None => clearTimeout (t_id t) w
  | Some p =>
      set_timers
        (map (fun x => if bool_decide (t_id x = t_id t)
                       then mkTimer (t_id x) (t_cb x) (t_due x + p)%Q (t_period x)
                       else x) (timers w)) w
  end.

Definition run_callback (cb : Callback) (w : World) : World :=
  match cb with
  | ConnectTimeoutCb => connect_timeout_callback w
  | ReconnectCb => connect w
  | HeartbeatCb => heartbeat_callback w
  | PongTimeoutCb => pong_timeout_callback w
  end.

(** One event.  An exception that leaves a listener or a caller's
    [sendMessage] does not undo what was done before it. *)
Definition step (ev : Event) (w : World) : World :=
  if negb (enabled ev w) then w else
  match ev with
  | Connect => connect w
  | Disconnect => disconnect w
  | Destroy => destroy w
  | SendMessage m => snd (sendMessage m w)
  | OnMessage h => set_messageHandlers (set_add h (messageHandlers w)) w
  | OffMessage h => set_messageHandlers (set_delete h (messageHandlers w)) w
  | OnError h => set_errorHandlers (set_add h (errorHandlers w)) w
  | OffError h => set_errorHandlers (set_delete h (errorHandlers w)) w
  | OnConnectionChange h =>
      set_connectionChangeHandlers (set_add h (connectionChangeHandlers w)) w
  | OffConnectionChange h =>
      set_connectionChangeHandlers (set_delete h (connectionChangeHandlers w)) w
  | SockOpen id =>
      (* the listeners of the socket, in registration order: handleOpen, then
         the once-only listener that clears the connection timeout *)
      let w1 := snd (handleOpen (set_readyState id OPEN w)) in
      match sockets w !! id ≫= s_clearOnOpen with
      | Some tid => clearTimeout tid w1
      | None => w1
      end
  | SockMessage _ parsed => handleMessage parsed w
  | SockError _ => handleError w
  | SockClose id => handleClose (set_readyState id CLOSED w)
  | Fire tid =>
      match find_timer tid w with
      | Some t => run_callback (t_cb t) (rearm t w)
      | None => w
      end
  end.

(** A timed event: the clock reads [t] when the event is handled. *)
Definition step_at (te : Q * Event) (w : World) : World :=
  step (snd te) (set_now (fst te) w).

Definition run (evs : list (Q * Event)) (w : World) : World :=
  foldl (fun w te => step_at te w) w evs.

(** Whether a timed event can happen at [t] in [w]: time does not go back,
    no pending timer was due before [t], a timer fires at the instant it is
    due, and the event is one the browser can produce. *)
Definition on_time (te : Q * Event) (w : World) : bool :=
  let '(t, ev) := te in
  Qle_bool (now w) t
  && forallb (fun x => Qle_bool t (t_due x)) (timers w)
  && match ev with
     | Fire tid => match find_timer tid w with
                   | Some x => Qeq_bool (t_due x) t
                   | None => false
                   end
     | _ => true
     end
  && enabled ev (set_now t w).

Fixpoint realizable (evs : list (Q * Event)) (w : World) : bool :=
  match evs with
  | [] => true
  | te :: evs' => on_time te w && realizable evs' (step_at te w)
  end.

(** ** Session identity (config.ts) *)

Definition SESSION_ID_KEY : string := "servergem_session_id".

(** [generateSessionId]: [stamp] is the decimal text of [Date.now()] and [rnd]
    that of [Math.random().toString(36).substring(2, 15)]. *)
Definition generateSessionId (stamp rnd : string) : string :=
  "session_" +:+ stamp +:+ "_" +:+ rnd.

(** [getSessionId]: the identity and the storage afterwards.  [!sessionId]
    holds for [null] and for the empty string. *)
Definition getSessionId (stamp rnd : string) (storage : gmap string string)
    : string * gmap string string :=
  let fresh := generateSessionId stamp rnd in
  match storage !! SESSION_ID_KEY with
  | Some sessionId =>
      if bool_decide (sessionId = "")
      then (fresh, <[SESSION_ID_KEY := fresh]> storage)
      else (sessionId, storage)
  | None => (fresh, <[SESSION_ID_KEY := fresh]> storage)
  end.

(** [clearSessionId]. *)
Definition clearSessionId (storage : gmap string string) : gmap string string :=
  delete SESSION_ID_KEY storage.

(** What a constructor call draws from the clock and the random source. *)
Record Entropy := mkEntropy {
  instance_stamp : string;
  instance_rnd : string;
  session_stamp : string;
  session_rnd : string;
}.

(** [new WebSocketClient(config)] at instant [t0], in a browser whose storage
    is [storage].  The module-level [activeClientInstance] is only logged. *)
Definition new_WebSocketClient (h : Host) (ws_url : string) (e : Entropy)
    (storage : gmap string string) (t0 : Q) (o : PartialConfig) : World :=
  let '(sid, storage') := getSessionId (session_stamp e) (session_rnd e) storage in
  {| host := h;
     ws := None;
     sessionId := sid;
     instanceId := "client_" +:+ instance_stamp e +:+ "_" +:+ instance_rnd e;
     config := merge_config (WS_CONFIG ws_url) o;
     connectionStatus := {| state := Idle; error := None;
                            reconnectAttempt := None; lastConnected := None |};
     reconnectAttempts := 0;
     reconnectTimer := None;
     isIntentionalClose := false;
     heartbeatTimer := None;
     heartbeatTimeoutTimer := None;
     messageQueue := [];
     messageHandlers := [];
     errorHandlers := [];
     connectionChangeHandlers := [];
     now := t0;
     timers := [];
     nextTimer := 1;
     sockets := [];
     localStorage := storage';
     scheduled := [];
     wire := [];
     delivered := [] |}.

(** ** The progress interpreter *)

Module Progress.

(** *** String primitives *)

(** [s.includes(needle)]. *)
Fixpoint includes (s needle : string) : bool :=
  String.prefix needle s
  || match s with
     | EmptyString => false
     | String _ s' => includes s' needle
     end.

(** The leftmost position at which [f] succeeds: how [RegExp.prototype.exec]
    tries a pattern at index 0, 1, 2, ... *)
Fixpoint leftmost {A : Type} (f : string -> option A) (s : string) : option A :=
  match f s with
  | Some a => Some a
  | None => match s with
            | EmptyString => None
            | String _ s' => leftmost f s'
            end
  end.

(** The longest prefix whose characters satisfy [p], and what follows it. *)
Fixpoint span (p : ascii -> bool) (s : string) : string * string :=
  match s with
  | EmptyString => (EmptyString, EmptyString)
  | String c s' =>
      if p c then let '(a, b) := span p s' in (String c a, b)
      else (EmptyString, s)
  end.

Definition code (c : ascii) : N := N_of_ascii c.

Definition is_digit (c : ascii) : bool := (48 <=? code c)%N && (code c <=? 57)%N.

(** [\w]: ASCII letters, digits and the underscore. *)
Definition is_word (c : ascii) : bool :=
  is_digit c
  || ((65 <=? code c) && (code c <=? 90))%N
  || ((97 <=? code c) && (code c <=? 122))%N
  || (code c =? 95)%N.

(** The canonical form of a character under the [i] flag: ASCII letters fold,
    and no other character folds onto an ASCII one. *)
Definition fold_case (c : ascii) : ascii :=
  if ((65 <=? code c) && (code c <=? 90))%N then ascii_of_N (code c + 32) else c.

(** A literal (given in lower case) matched at the head of [s] under the [i]
    flag: what follows it. *)
Fixpoint literal_i (lit s : string) : option string :=
  match lit, s with
  | EmptyString, _ => Some s
  | String a lit', String c s' =>
      if Ascii.eqb a (fold_case c) then literal_i lit' s' else None
  | String _ _, EmptyString => None
  end.

(** A literal matched at the head of [s]: what follows it. *)
Fixpoint literal (lit s : string) : option string :=
  match lit, s with
  | EmptyString, _ => Some s
  | String a lit', String c s' =>
      if Ascii.eqb a c then literal lit' s' else None
  | String _ _, EmptyString => None
  end.

Definition bytes (l : list N) : string :=
  fold_right (fun n s => String (ascii_of_N n) s) EmptyString l.

(** The line terminators of ECMAScript, which [.] does not match: LF, CR,
    U+2028 and U+2029 (three bytes each in UTF-8).  The number of bytes of the
    terminator at the head of [s], 0 when there is none. *)
Definition line_terminator (s : string) : nat :=
  if String.prefix (bytes [10%N]) s || String.prefix (bytes [13%N]) s then 1
  else if String.prefix (bytes [226; 128; 168]%N) s
          || String.prefix (bytes [226; 128; 169]%N) s then 3
  else 0.

(** [.*] taken greedily: everything up to the next line terminator. *)
Fixpoint rest_of_line (s : string) : string :=
  match line_terminator s, s with
  | O, String c s' => String c (rest_of_line s')
  | _, _ => EmptyString
  end.

(** [\s]: the white space and line terminators of ECMAScript.  The number of
    bytes of the white-space character at the head of [s], 0 when there is
    none. *)
Definition white_space (s : string) : nat :=
  match s with
  | EmptyString => 0
  | String c _ =>
      if ((9 <=? code c) && (code c <=? 13) || (code c =? 32))%N then 1
      else if String.prefix (bytes [194; 160]%N) s then 2          (* U+00A0 *)
      else if String.prefix (bytes [225; 154; 128]%N) s            (* U+1680 *)
              || existsb (fun b => String.prefix (bytes [226; 128; b]%N) s)
                   [128; 129; 130; 131; 132; 133; 134; 135; 136; 137; 138;
                    168; 169; 175]%N               (* U+2000-200A, 2028, 2029, 202F *)
              || String.prefix (bytes [226; 129; 159]%N) s         (* U+205F *)
              || String.prefix (bytes [227; 128; 128]%N) s         (* U+3000 *)
              || String.prefix (bytes [239; 187; 191]%N) s         (* U+FEFF *)
           then 3
      else 0
  end.

Fixpoint drop_bytes (n : nat) (s : string) : string :=
  match n, s with
  | S n', String _ s' => drop_bytes n' s'
  | _, _ => s
  end.

(** A greedy run of characters that are [:] (when [colon] is set) or white
    space: the number of characters taken and what follows.  [fuel] bounds the
    number of characters by the length of the text. *)
Fixpoint separators (colon : bool) (fuel : nat) (s : string) : nat * string :=
  match fuel with
  | O => (O, s)
  | S fuel' =>
      match s with
      | String c s' =>
          if colon && (code c =? 58)%N
          then let '(n, r) := separators colon fuel' s' in (S n, r)
          else match white_space s with
               | O => (O, s)
               | k => let '(n, r) := separators colon fuel' (drop_bytes k s) in (S n, r)
               end
      | EmptyString => (O, s)
      end
  end.

(** A non-empty greedy run of [p]: the run. *)
Definition run1 (p : ascii -> bool) (s : string) : option string :=
  match span p s with
  | (EmptyString, _) => None
  | (a, _) => Some a
  end.

(** *** The regular expressions of [parseBackendLog] *)

(** [message.match(/to (.+)/)[1]]. *)
Definition match_to (message : string) : option string :=
  leftmost (fun s => match literal "to " s with
                     | Some r => match rest_of_line r with
                                 | EmptyString => None
                                 | line => Some line
                                 end
                     | None => None
                     end) message.

(** [message.match(/framework.*detected/i)], as a truth value. *)
Definition match_framework_detected (message : string) : bool :=
  match leftmost (fun s => match literal_i "framework" s with
                           | Some r =>
                               leftmost (fun x => literal_i "detected" x) (rest_of_line r)
                           | None => None
                           end) message with
  | Some _ => true
  | None => false
  end.

(** [message.match(/(?:framework[:\s]+|detected\s+)(\w+)/i)[1]]. *)
Definition match_framework_name (message : string) : option string :=
  leftmost (fun s =>
    let name_after (colon : bool) (r : string) :=
      match separators colon (String.length r) r with
      | (O, _) => None
      | (_, r') => run1 is_word r'
      end in
    let alt1 := literal_i "framework" s ≫= name_after true in
    let alt2 := literal_i "detected" s ≫= name_after false in
    match alt1 with
    | Some name => Some name
    | None => alt2
    end) message.

(** [message.match(/Generating Dockerfile for (\w+)/)[1]]. *)
Definition match_dockerfile_for (message : string) : option string :=
  leftmost (fun s => match literal "Generating Dockerfile for " s with
                     | Some r => run1 is_word r
                     | None => None
                     end) message.

(** [message.match(/(\d+)%/)[1]]: the digits of the leftmost run of digits
    that a percent sign follows. *)
Definition match_percent (message : string) : option string :=
  leftmost (fun s => match span is_digit s with
                     | (EmptyString, _) => None
                     | (ds, String c _) => if (code c =? 37)%N then Some ds else None
                     | (_, EmptyString) => None
                     end) message.

(** [parseInt] of a run of decimal digits. *)
Definition parseInt (ds : string) : N :=
  let fix go (acc : N) (s : string) : N :=
    match s with
    | EmptyString => acc
    | String c s' => go (acc * 10 + (code c - 48))%N s'
    end in
  go 0%N ds.

(** The decimal text of a non-negative integer, as a template literal
    renders it. *)
Definition decimal (n : N) : string :=
  DecimalString.NilZero.string_of_uint (N.to_uint n).

(** *** [StageUpdate] and [parseBackendLog] *)

Inductive DeploymentStage :=
  | repo_access | code_analysis | dockerfile_generation
  | security_scan | container_build | cloud_deployment | unknown.

Inductive StageStatus := in_progress | success | failed.

#[global] Instance DeploymentStage_eq_dec : EqDecision DeploymentStage.
Proof. solve_decision. Defined.

#[global] Instance StageStatus_eq_dec : EqDecision StageStatus.
Proof. solve_decision. Defined.

(** The object [parseBackendLog] returns: [status] is ['in-progress'],
    ['success'] or ['error'] ([failed] here); the milestones carry [details],
    the error classification carries [message] instead. *)
Record StageUpdate := mkUpdate {
  stage : DeploymentStage;
  status : StageStatus;
  details : option (list string);
  message : option string;
  progress : Q;
}.

Definition milestone (s : DeploymentStage) (st : StageStatus) (d : list string) (p : Q)
    : option StageUpdate :=
  Some (mkUpdate s st (Some d) None p).

(** [parseBackendLog]: the chain of [if]s of the source, in its order. *)
Definition parseBackendLog (message : string) : option StageUpdate :=
  (* pre-flight checks - starting *)
  if includes message "🔍 Running pre-flight checks" || includes message "pre-flight" then
    milestone repo_access in_progress ["Verifying GCP environment..."] 1
  (* pre-flight checks - complete *)
  else if includes message "✅ All pre-flight checks passed" then
    milestone repo_access success
      ["Project access verified"; "Artifact Registry ready"; "Cloud Build API enabled";
       "Cloud Run API enabled"; "Storage bucket configured"] 3
  (* individual pre-flight check updates *)
  else if includes message "✅ Project access verified" then
    milestone repo_access in_progress ["Project access verified ✓"] 1
  else if includes message "✅ Artifact Registry"
          || includes message "📦 Creating Artifact Registry" then
    milestone repo_access in_progress ["Setting up Artifact Registry..."] 2
  (* repository cloning - starting *)
  else if includes message "[GitHubService] Cloning" || includes message "Cloning repository"
          || includes message "🚀 Starting repository clone" then
    milestone repo_access in_progress ["Cloning repository from GitHub..."] 5
  (* repository cloning - complete *)
  else if (includes message "Cloning" && includes message "to")
          || includes message "Repository cloned" then
    milestone repo_access success
      ["Cloned from GitHub";
       "Location: " +:+ default "local cache" (match_to message)] 15
  (* code analysis - starting *)
  else if includes message "[AnalysisService] Analyzing project"
          || includes message "Starting code analysis" then
    milestone code_analysis in_progress ["Detecting framework and dependencies..."] 20
  (* code analysis - scanning *)
  else if includes message "Analyzing project at" then
    milestone code_analysis in_progress ["Scanning project structure..."] 25
  (* code analysis - framework detection *)
  else if includes message "Detected framework" || match_framework_detected message then
    let framework := default "unknown" (match_framework_name message) in
    milestone code_analysis in_progress
      ["Framework detected: " +:+ framework; "Analyzing dependencies..."] 30
  (* code analysis - complete *)
  else if includes message "Analysis complete" || includes message "analysis_result" then
    milestone code_analysis success
      ["Framework and runtime identified"; "Dependencies analyzed";
       "Configuration validated"] 35
  (* Dockerfile generation - starting *)
  else if includes message "[AnalysisService] Generating Dockerfile"
          || includes message "Generating Dockerfile" then
    let framework := default "detected framework" (match_dockerfile_for message) in
    milestone dockerfile_generation in_progress
      ["Framework: " +:+ framework; "Creating optimized Docker configuration..."] 40
  (* Dockerfile saving - in progress *)
  else if includes message "💾 Saving Dockerfile" then
    milestone dockerfile_generation in_progress ["Saving Dockerfile to project..."] 48
  (* Dockerfile generation - complete *)
  else if includes message "[DockerService] Dockerfile saved"
          || includes message "Dockerfile created"
          || includes message "✅ Dockerfile saved" then
    milestone dockerfile_generation success
      ["Multi-stage build configured"; "Security best practices applied";
       "Layer caching optimized"; "Dockerfile saved to project"] 50
  (* security scan - starting *)
  else if includes message "Security scan"
          || includes message "Scanning for vulnerabilities" then
    milestone security_scan in_progress ["Scanning for vulnerabilities..."] 55
  (* security scan - complete *)
  else if includes message "Security scan complete"
          || includes message "No vulnerabilities" then
    milestone security_scan success ["Security checks passed"] 60
  (* container build - starting *)
  else if includes message "Building container image"
          || includes message "[DockerService] Building" then
    milestone container_build in_progress ["Building Docker image..."] 65
  (* container build - progress *)
  else if includes message "Building" && includes message "%" then
    let buildProgress := match match_percent message with
                         | Some ds => parseInt ds
                         | None => 0%N
                         end in
    milestone container_build in_progress
      ["Build progress: " +:+ decimal buildProgress +:+ "%"]
      (65 + inject_Z (Z.of_N buildProgress) * (15 # 100))
  (* container build - complete *)
  else if includes message "Container image built" || includes message "Build complete" then
    milestone container_build success ["Image built successfully"] 80
  (* cloud deployment - starting *)
  else if includes message "Deploying to Cloud Run"
          || includes message "[GCloudService] Deploying" then
    milestone cloud_deployment in_progress ["Launching service on Cloud Run..."] 85
  (* cloud deployment - progress *)
  else if includes message "Deployment progress" then
    milestone cloud_deployment in_progress ["Configuring service..."] 90
  (* deployment health checks *)
  else if includes message "🔍 Verifying deployment health"
          || includes message "Waiting for service to be ready" then
    milestone cloud_deployment in_progress ["Verifying service health..."] 95
  (* cloud deployment - complete *)
  else if includes message "Deployment successful"
          || includes message "deployed successfully"
          || includes message "Service URL:"
          || includes message "🎉 Deployment complete" then
    milestone cloud_deployment success ["Service deployed and verified successfully!"] 100
  (* error detection *)
  else if includes message "Error:" || includes message "Failed:"
          || includes message "[ERROR]" then
    Some (mkUpdate unknown failed None (Some message) 0)
  else None.

End Progress.

(** ** Notions used in the statements *)

(** What no method assigns: the host, the two identities, the configuration
    and the storage. *)
Definition fixed (w : World) : Host * string * string * WebSocketConfig * gmap string string :=
  (host w, sessionId w, instanceId w, config w, localStorage w).

(** The number of reconnect timers among calls of [setTimeout]. *)
Definition retries (l : list (nat * Callback * Q)) : nat :=
  length (filter (fun e => e.1.2 = ReconnectCb) l).

(** Retries scheduled so far. *)
Definition retry_count (w : World) : nat := retries (scheduled w).

(** The texts that reach socket [id] when [ms] are sent on it in order: a
    message that [JSON.stringify] rejects is not sent. *)
Definition transmit (h : Host) (id : nat) (ms : list ClientMessage) : list (nat * string) :=
  omap (fun m => match JSON_stringify h m with
                 | inl data => Some (id, data)
                 | inr _ => None
                 end) ms.

(** Successive calls of [sendMessage] by a caller that catches what they
    raise. *)
Definition send_all (ms : list ClientMessage) (w : World) : World :=
  foldl (fun w m => (sendMessage m w).2) w ms.

(** The [init] message that [handleOpen] builds in [w]. *)
Definition init_message (w : World) : ClientMessage :=
  MsgInit (sessionId w) (instanceId w) (bool_decide (0 < reconnectAttempts w)%nat)
    (navigator_userAgent (host w)) (now w).

(** Whether the timed event is the [open] event of a connecting socket. *)
Definition opens (te : Q * Event) (w : World) : bool :=
  match te.2 with
  | SockOpen id => bool_decide (socket_state w id = Some CONNECTING)
  | _ => false
  end.

(** The value of [retry_count] when the channel last opened in the run of
    [evs] from [w] ([base] when it does not open). *)
Fixpoint retries_at_last_open (evs : list (Q * Event)) (w : World) (base : nat) : nat :=
  match evs with
  | [] => base
  | te :: evs' =>
      let w' := step_at te w in
      retries_at_last_open evs' w' (if opens te w then retry_count w' else base)
  end.

(** The same world with other values for [config.heartbeat.interval] and
    [config.heartbeat.timeout]. *)
Definition with_heartbeat_timing (i t : Q) (w : World) : World :=
  let c := config w in
  set_config
    {| url := url c;
       reconnect := reconnect c;
       heartbeat := {| hb_enabled := hb_enabled (heartbeat c); interval := i; timeout := t |};
       messageQueueCfg := messageQueueCfg c |} w.

(** The world without its configuration's heartbeat interval and timeout. *)
Definition behaviour (w : World) : World := with_heartbeat_timing 0 0 w.

(** What a method that schedules no retry leaves alone. *)
Definition calm_view (w : World) :=
  (fixed w, reconnectAttempts w, retry_count w).

(** What every method but [handleOpen] leaves alone: the attempt counter
    moves only together with the number of retries scheduled. *)
Definition track_view (w : World) :=
  (fixed w, (Z.of_nat (reconnectAttempts w) - Z.of_nat (retry_count w))%Z).

(** A client that has used up its reconnect attempts. *)
Definition exhausted (w : World) : Prop :=
  (maxAttempts (reconnect (config w)) <= reconnectAttempts w)%nat.

(** Every socket that is connecting or open is the client's current one. *)
Definition one_live_socket (w : World) : Prop :=
  forall id s, sockets w !! id = Some s ->
    readyState s = CONNECTING \/ readyState s = OPEN -> ws w = Some id.

(** *** The progress interpreter *)

(** The failure markers of the last test of [parseBackendLog]. *)
Definition has_error_marker (message : string) : bool :=
  Progress.includes message "Error:" || Progress.includes message "Failed:"
  || Progress.includes message "[ERROR]".

(** The tests of [parseBackendLog] that come before the error test. *)
Definition matches_milestone (message : string) : bool :=
  let inc := Progress.includes message in
  (inc "🔍 Running pre-flight checks" || inc "pre-flight")
  || inc "✅ All pre-flight checks passed"
  || inc "✅ Project access verified"
  || (inc "✅ Artifact Registry" || inc "📦 Creating Artifact Registry")
  || (inc "[GitHubService] Cloning" || inc "Cloning repository"
      || inc "🚀 Starting repository clone")
  || ((inc "Cloning" && inc "to") || inc "Repository cloned")
  || (inc "[AnalysisService] Analyzing project" || inc "Starting code analysis")
  || inc "Analyzing project at"
  || (inc "Detected framework" || Progress.match_framework_detected message)
  || (inc "Analysis complete" || inc "analysis_result")
  || (inc "[AnalysisService] Generating Dockerfile" || inc "Generating Dockerfile")
  || inc "💾 Saving Dockerfile"
  || (inc "[DockerService] Dockerfile saved" || inc "Dockerfile created"
      || inc "✅ Dockerfile saved")
  || (inc "Security scan" || inc "Scanning for vulnerabilities")
  || (inc "Security scan complete" || inc "No vulnerabilities")
  || (inc "Building container image" || inc "[DockerService] Building")
  || (inc "Building" && inc "%")
  || (inc "Container image built" || inc "Build complete")
  || (inc "Deploying to Cloud Run" || inc "[GCloudService] Deploying")
  || inc "Deployment progress"
  || (inc "🔍 Verifying deployment health" || inc "Waiting for service to be ready")
  || (inc "Deployment successful" || inc "deployed successfully"
      || inc "Service URL:" || inc "🎉 Deployment complete").

(** The classification [parseBackendLog] gives to a line that only matches
    the error test. *)
Definition error_update (message : string) : Progress.StageUpdate :=
  Progress.mkUpdate Progress.unknown Progress.failed None (Some message) 0.

(** The progress values [parseBackendLog] returns along a sequence of lines
    (lines it does not recognise contribute nothing). *)
Definition progress_values (lines : list string) : list Q :=
  omap (fun l => Progress.progress <$> Progress.parseBackendLog l) lines.

(** The log of a fully successful deployment, stage by stage in the fixed
    order, each line being one the parser's own tests name: start, key facts
    and completion of the pre-flight checks and of the clone ([repo_access]),
    then of the five later stages. *)
Definition successful_run : list string :=
  [ "🔍 Running pre-flight checks";
    "✅ Project access verified";
    "✅ Artifact Registry";
    "✅ All pre-flight checks passed";
    "Cloning repository";
    "Repository cloned";
    "Starting code analysis";
    "Analyzing project at /tmp/repo";
    "Detected framework: nextjs";
    "Analysis complete";
    "Generating Dockerfile for nextjs";
    "💾 Saving Dockerfile";
    "✅ Dockerfile saved";
    "Scanning for vulnerabilities";
    "Security scan complete";
    "Building container image";
    "Building: 50%";
    "Container image built";
    "Deploying to Cloud Run";
    "Deployment progress";
    "🔍 Verifying deployment health";
    "🎉 Deployment complete" ].

(** Adjacent values never decrease. *)
Fixpoint nondecreasing (l : list Q) : bool :=
  match l with
  | x :: (y :: _) as l' => Qle_bool x y && nondecreasing l'
  | _ => true
  end.

(** *** Scenarios *)

(** A host whose [JSON.stringify] and [WebSocket] constructor never throw. *)
Definition demo_host : Host :=
  {| JSON_stringify := fun m =>
       inl match m with
           | MsgInit _ _ r _ _ => if r then "init(reconnect)" else "init"
           | MsgPing _ => "ping"
           | MsgOther ty _ => ty
           end;
     WebSocket_ctor := fun _ => None;
     encodeURIComponent := fun s => s;
     navigator_userAgent := "Mozilla/5.0" |}.

Definition demo_entropy : Entropy :=
  {| instance_stamp := "1700000000000"; instance_rnd := "k3j9x2a";
     session_stamp := "1700000000001"; session_rnd := "p0q8w7e6r5t4y" |}.

Definition no_overrides : PartialConfig := mkPartial None None None None.

(** [new WebSocketClient()] at time 0 in a browser with empty storage. *)
Definition demo_world : World :=
  new_WebSocketClient demo_host "ws://localhost:8000/ws/chat" demo_entropy ∅ 0 no_overrides.

(** The same with [{ messageQueue: { enabled: false, maxSize: 50 } }] and one
    error handler and one connection-change handler registered. *)
Definition no_queue_world : World :=
  run [(0, OnError 1); (0, OnConnectionChange 2)]%Q
    (new_WebSocketClient demo_host "ws://localhost:8000/ws/chat" demo_entropy ∅ 0
       (mkPartial None None None (Some (mkQueue false 50)))).

(** A client with an error handler, connected since t = 100 ms. *)
Definition connected_world : World :=
  run [(0, OnError 1); (0, Connect); (100, SockOpen 0)]%Q demo_world.

Definition pong : option ServerMessage := Some (mkServerMessage "pong" "").

(** A server that answers the first ping after 16.9 s: pings leave at 15.1 s
    and 30.1 s (timer 2 is the heartbeat interval), the pong arrives at 32 s,
    and at 45.1 s the pong timeout of the first ping (timer 3) comes due. *)
Definition slow_pong_run : list (Q * Event) :=
  [(0, Connect); (100, SockOpen 0); (15100, Fire 2); (30100, Fire 2);
   (32000, SockMessage 0 pong); (45100, Fire 3)]%Q.

(** The same run when, at 45.1 s, the third tick of the heartbeat interval is
    handled before the pong timeout of the first ping. *)
Definition slow_pong_run_tick_first : list (Q * Event) :=
  [(0, Connect); (100, SockOpen 0); (15100, Fire 2); (30100, Fire 2);
   (32000, SockMessage 0 pong); (45100, Fire 2); (45100, Fire 3)]%Q.

(** A connection attempt that times out, followed by [disconnect()]: the
    connection timeout (timer 1) fires at 10 s and closes the socket, the
    socket's [close] event follows, the caller disconnects at 10.5 s, and at
    11 s the retry scheduled by the timeout callback (timer 2) comes due. *)
Definition timeout_then_disconnect : list (Q * Event) :=
  [(0, Connect); (10000, Fire 1); (10001, SockClose 0); (10500, Disconnect)]%Q.

Definition orphan_retry : Q * Event := (11000, Fire 2)%Q.

(** A client constructed with [{ messageQueue: { enabled: true, maxSize: 2 } }]. *)
Definition small_queue_world : World :=
  new_WebSocketClient demo_host "ws://localhost:8000/ws/chat" demo_entropy ∅ 0
    (mkPartial None None None (Some (mkQueue true 2))).

(** The client's socket and the sockets there are. *)
Definition net_view (w : World) := (ws w, sockets w).

(** A client that lost its first connection at 5 s and whose first retry
    (timer 3, due one second later) has just created a second socket. *)
Definition reconnecting_world : World :=
  run [(0, Connect); (100, SockOpen 0); (5000, SockClose 0); (6000, Fire 3)]%Q demo_world.

(** A client constructed with
    [{ heartbeat: { enabled: true, interval: 1000, timeout: 200 } }]. *)
Definition fast_heartbeat_world : World :=
  new_WebSocketClient demo_host "ws://localhost:8000/ws/chat" demo_entropy ∅ 0
    (mkPartial None None (Some (mkHeartbeat true 1000 200)) None).

(** A client at rest after [disconnect()]: the close is marked intentional,
    the status is [disconnected], there is no current socket, no socket is
    connecting or open, and no retry is pending. *)
Definition at_rest (w : World) : Prop :=
  isIntentionalClose w = true
  /\ state (connectionStatus w) = Disconnected
  /\ ws w = None
  /\ (forall id s, sockets w !! id = Some s ->
        readyState s = CLOSING \/ readyState s = CLOSED)
  /\ (forall t, t ∈ timers w -> t_cb t <> ReconnectCb).

(** A client that has given up: the status is [error], the attempts are used
    up, no socket is connecting or open, and no retry is pending. *)
Definition gave_up (w : World) : Prop :=
  state (connectionStatus w) = Error
  /\ exhausted w
  /\ rc_enabled (reconnect (config w)) = true
  /\ isIntentionalClose w = false
  /\ (forall id s, sockets w !! id = Some s ->
        readyState s = CLOSING \/ readyState s = CLOSED)
  /\ (forall t, t ∈ timers w -> t_cb t <> ReconnectCb).

(** A server that refuses every connection: each socket closes 10 ms after it
    was created, the ten retries fire when they are due (timers 2, 4, 6, 8,
    10, 12, 14, 16, 18, 20), and the connection timeouts of the refused
    sockets fire in between, when they are due.  At the end the socket of the
    tenth retry is connecting. *)
Definition ten_failures : list (Q * Event) :=
  [(0, Connect); (10, SockClose 0);
   (1010, Fire 2); (1020, SockClose 1);
   (2520, Fire 4); (2530, SockClose 2);
   (4780, Fire 6); (4790, SockClose 3);
   (8165, Fire 8); (8175, SockClose 4);
   (10000, Fire 1); (11010, Fire 3); (12520, Fire 5);
   (26475 # 2, Fire 10); (26495 # 2, SockClose 5);
   (14780, Fire 7); (18165, Fire 9);
   (83365 # 4, Fire 12); (83405 # 4, SockClose 6);
   (46475 # 2, Fire 11); (123365 # 4, Fire 13);
   (257935 # 8, Fire 14); (258015 # 8, SockClose 7);
   (337935 # 8, Fire 15);
   (789405 # 16, Fire 16); (789565 # 16, SockClose 8);
   (949405 # 16, Fire 17);
   (2399255 # 32, Fire 18); (2399575 # 32, SockClose 9);
   (2719255 # 32, Fire 19);
   (3359575 # 32, Fire 20)]%Q.

(** The client after these ten failures, when the last socket is about to
    close as well. *)
Definition last_attempt_world : World :=
  set_now (3359895 # 32) (run ten_failures demo_world).

Definition link_view (w : World) :=
  (ws w, sockets w, host w, messageQueue w, config w, sessionId w, instanceId w).

(** * Properties *)

(** ** Backoff arithmetic *)

Lemma backoff_nondecreasing (c : ReconnectConfig) (n : nat) :
  (0 <= initialDelay c)%Q -> (1 <= backoffMultiplier c)%Q ->
  (calculateBackoffDelay c n <= calculateBackoffDelay c (S n))%Q.
Proof.
  intros Hi Hm. unfold calculateBackoffDelay. cbv zeta.
  apply Q.min_le_compat_r.
  rewrite (Qmult_comm _ (_ ^ (Z.of_nat (S n) - 1))), (Qmult_comm (initialDelay c)).
  apply Qmult_le_compat_r; [|exact Hi].
  apply Qpower_le_compat_l; [lia | exact Hm].
Qed.

Lemma backoff_capped (c : ReconnectConfig) (n : nat) :
  (calculateBackoffDelay c n <= maxDelay c)%Q.
Proof. unfold calculateBackoffDelay. apply Q.le_min_r. Qed.

Lemma shipped_backoff_cap (u : string) (n : nat) :
  (10 <= n)%nat -> (calculateBackoffDelay (reconnect (WS_CONFIG u)) n == 30000)%Q.
Proof.
  intros Hn. unfold calculateBackoffDelay.
  cbn [reconnect WS_CONFIG initialDelay maxDelay backoffMultiplier].
  apply Q.min_r.
  assert (H : ((3 # 2) ^ 9 <= (3 # 2) ^ (Z.of_nat n - 1))%Q).
  { apply Qpower_le_compat_l; [lia | lra]. }
  assert (H9 : (30 <= (3 # 2) ^ 9)%Q) by (vm_compute; discriminate).
  nra.
Qed.

(** ** What the methods leave alone *)

Lemma retries_snoc l id cb d :
  retries (l ++ [(id, cb, d)])
  = (retries l + (if decide (cb = ReconnectCb) then 1 else 0))%nat.
Proof.
  unfold retries. rewrite filter_app, length_app. f_equal.
  rewrite filter_cons, filter_nil. simpl.
  destruct (decide (cb = ReconnectCb)); reflexivity.
Qed.

Ltac view_tac :=
  unfold calm_view, track_view, retry_count, fixed; simpl;
  rewrite ?retries_snoc; simpl; rewrite ?Nat.add_0_r; try reflexivity.

Lemma calm_track w w' : calm_view w' = calm_view w -> track_view w' = track_view w.
Proof.
  intros H. unfold track_view.
  pose proof (f_equal (fun v => v.1.1) H) as H1.
  pose proof (f_equal (fun v => v.1.2) H) as H2.
  pose proof (f_equal (fun v => v.2) H) as H3.
  simpl in H1, H2, H3. rewrite H1, H2, H3. reflexivity.
Qed.

Lemma calm_fixed w w' : calm_view w' = calm_view w -> fixed w' = fixed w.
Proof. intros H. exact (f_equal (fun v => v.1.1) H). Qed.

Lemma calm_config w w' : calm_view w' = calm_view w -> config w' = config w.
Proof. intros H. exact (f_equal (fun v => v.1.1.1.2) H). Qed.

Lemma calm_attempts w w' :
  calm_view w' = calm_view w -> reconnectAttempts w' = reconnectAttempts w.
Proof. intros H. exact (f_equal (fun v => v.1.2) H). Qed.

Lemma calm_retry_count w w' : calm_view w' = calm_view w -> retry_count w' = retry_count w.
Proof. intros H. exact (f_equal (fun v => v.2) H). Qed.

Lemma track_fixed w w' : track_view w' = track_view w -> fixed w' = fixed w.
Proof. intros H. exact (f_equal fst H). Qed.

Lemma exhausted_calm w w' : calm_view w' = calm_view w -> exhausted w -> exhausted w'.
Proof.
  unfold exhausted. intros H.
  rewrite (calm_config _ _ H), (calm_attempts _ _ H). auto.
Qed.

Lemma sendMessage_calm m w : calm_view (sendMessage m w).2 = calm_view w.
Proof. unfold sendMessage. repeat case_match; reflexivity. Qed.

Lemma forEach_send_calm q w : calm_view (forEach_send q w).2 = calm_view w.
Proof.
  revert w. induction q as [|m q IH]; intros w; [reflexivity|].
  simpl. pose proof (sendMessage_calm m w) as Hs.
  destruct (sendMessage m w) as [[b|e] w']; simpl in *; [rewrite IH|]; exact Hs.
Qed.

Lemma flushMessageQueue_calm w : calm_view (flushMessageQueue w).2 = calm_view w.
Proof.
  unfold flushMessageQueue. case_match; [reflexivity|].
  rewrite forEach_send_calm. reflexivity.
Qed.

Lemma stopHeartbeat_calm w : calm_view (stopHeartbeat w) = calm_view w.
Proof. unfold stopHeartbeat. repeat case_match; reflexivity. Qed.

Lemma startHeartbeat_calm w : calm_view (startHeartbeat w) = calm_view w.
Proof.
  unfold startHeartbeat, setInterval. rewrite <- (stopHeartbeat_calm w). view_tac.
Qed.

Lemma heartbeat_callback_calm w : calm_view (heartbeat_callback w) = calm_view w.
Proof.
  unfold heartbeat_callback. case_match; [|reflexivity].
  match goal with |- context [sendMessage ?m ?w0] =>
    pose proof (sendMessage_calm m w0) as Hs;
    destruct (sendMessage m w0) as [[b|e] w'] end;
  simpl in Hs; rewrite <- Hs; view_tac.
Qed.

Lemma pong_timeout_callback_calm w : calm_view (pong_timeout_callback w) = calm_view w.
Proof. unfold pong_timeout_callback. case_match; reflexivity. Qed.

Lemma handlePong_calm w : calm_view (handlePong w) = calm_view w.
Proof. unfold handlePong. case_match; reflexivity. Qed.

Lemma handleMessage_calm p w : calm_view (handleMessage p w) = calm_view w.
Proof.
  unfold handleMessage. repeat case_match; try reflexivity. apply handlePong_calm.
Qed.

Lemma cleanup_calm w : calm_view (cleanup w) = calm_view w.
Proof.
  unfold cleanup. rewrite <- (stopHeartbeat_calm w). repeat case_match; reflexivity.
Qed.

Lemma disconnect_calm w : calm_view (disconnect w) = calm_view w.
Proof.
  unfold disconnect.
  transitivity (calm_view (cleanup (set_isIntentionalClose true w))); [reflexivity|].
  rewrite cleanup_calm. reflexivity.
Qed.

Lemma destroy_calm w : calm_view (destroy w) = calm_view w.
Proof.
  unfold destroy.
  transitivity (calm_view (cleanup (set_isIntentionalClose true w))); [reflexivity|].
  rewrite cleanup_calm. reflexivity.
Qed.

Lemma rearm_calm t w : calm_view (rearm t w) = calm_view w.
Proof. unfold rearm. case_match; reflexivity. Qed.

(** [handleReconnect] schedules nothing once the attempts are used up. *)
Lemma handleReconnect_calm w :
  exhausted w -> calm_view (handleReconnect w) = calm_view w.
Proof.
  intros Hmax. unfold handleReconnect. repeat case_match; try reflexivity.
  exfalso.
  match goal with H : bool_decide _ = false |- _ =>
    apply bool_decide_eq_false in H; apply H, Hmax end.
Qed.

(** Otherwise the counter and the number of retries move together. *)
Lemma handleReconnect_track w : track_view (handleReconnect w) = track_view w.
Proof.
  unfold handleReconnect. repeat case_match; try reflexivity.
  unfold setTimeout in *; simplify_eq.
  unfold track_view, retry_count, fixed. simpl. rewrite retries_snoc. simpl.
  f_equal. lia.
Qed.

(** The methods that may call [handleReconnect], for any view of the world
    that the calm methods preserve and that [handleReconnect] preserves under
    a condition [P]. *)
Section Lift.
Context {T : Type} (view : World -> T) (P : World -> Prop).
Hypothesis view_calm : forall w w', calm_view w' = calm_view w -> view w' = view w.
Hypothesis P_calm : forall w w', calm_view w' = calm_view w -> P w -> P w'.
Hypothesis view_handleReconnect : forall w, P w -> view (handleReconnect w) = view w.

Lemma connect_view w : P w -> view (connect w) = view w.
Proof using All.
  intros Hp. unfold connect. repeat case_match; try reflexivity.
  all: try (rewrite view_handleReconnect;
            [apply view_calm; reflexivity | eapply P_calm; [|exact Hp]; reflexivity]).
  all: unfold setTimeout in *; simplify_eq; apply view_calm; view_tac.
Qed.

Lemma connect_timeout_callback_view w :
  P w -> view (connect_timeout_callback w) = view w.
Proof using All.
  intros Hp. unfold connect_timeout_callback.
  repeat case_match; try reflexivity;
    (rewrite view_handleReconnect;
     [apply view_calm; reflexivity | eapply P_calm; [|exact Hp]; reflexivity]).
Qed.

Lemma handleClose_view w : P w -> view (handleClose w) = view w.
Proof using All.
  intros Hp. unfold handleClose.
  pose proof (stopHeartbeat_calm w) as Hs.
  assert (Hu : forall s, calm_view (updateConnectionStatus s None None (stopHeartbeat w))
                         = calm_view w) by (intros s; exact Hs).
  case_match; [|apply view_calm, Hu].
  rewrite view_handleReconnect; [apply view_calm, Hu|].
  eapply P_calm; [apply Hu | exact Hp].
Qed.

Lemma run_callback_view cb w : P w -> view (run_callback cb w) = view w.
Proof using All.
  intros Hp. destruct cb; simpl.
  - apply connect_timeout_callback_view, Hp.
  - apply connect_view, Hp.
  - apply view_calm, heartbeat_callback_calm.
  - apply view_calm, pong_timeout_callback_calm.
Qed.

Lemma step_view ev w :
  P w -> (forall id, ev <> SockOpen id) -> view (step ev w) = view w.
Proof using All.
  intros Hp Hev. unfold step. case_match; [reflexivity|].
  destruct ev; try (apply view_calm; reflexivity).
  - apply connect_view, Hp.
  - apply view_calm, disconnect_calm.
  - apply view_calm, destroy_calm.
  - apply view_calm, sendMessage_calm.
  - exfalso. eapply Hev. reflexivity.
  - apply view_calm, handleMessage_calm.
  - rewrite handleClose_view; [apply view_calm; reflexivity|].
    eapply P_calm; [|exact Hp]. reflexivity.
  - case_match; [|reflexivity].
    rewrite run_callback_view; [apply view_calm, rearm_calm|].
    eapply P_calm; [apply rearm_calm | exact Hp].
Qed.
End Lift.

(** With the attempts used up, no event but an [open] schedules a retry or
    moves the counter. *)
Lemma step_calm ev w :
  exhausted w -> (forall id, ev <> SockOpen id) -> calm_view (step ev w) = calm_view w.
Proof.
  apply (step_view calm_view exhausted).
  - auto.
  - apply exhausted_calm.
  - apply handleReconnect_calm.
Qed.

(** For every event but an [open], the counter moves with the retries. *)
Lemma step_track ev w :
  (forall id, ev <> SockOpen id) -> track_view (step ev w) = track_view w.
Proof.
  apply (step_view track_view (fun _ => True)); auto using calm_track, handleReconnect_track.
Qed.

(** [handleOpen] resets the counter and schedules no retry. *)
Lemma handleOpen_calm w :
  calm_view (handleOpen w).2 = calm_view (set_reconnectAttempts 0 w).
Proof.
  unfold handleOpen. cbv zeta.
  match goal with |- context [sendMessage ?m ?w0] =>
    pose proof (sendMessage_calm m w0) as Hs;
    destruct (sendMessage m w0) as [[b|e] w'] end; simpl in Hs; [|exact Hs].
  assert (H2 : calm_view (if hb_enabled (heartbeat (config w'))
                          then startHeartbeat w' else w')
               = calm_view (set_reconnectAttempts 0 w)).
  { destruct (hb_enabled _); [rewrite startHeartbeat_calm|]; exact Hs. }
  destruct (messageQueue _); [exact H2|].
  rewrite flushMessageQueue_calm. exact H2.
Qed.

Lemma step_SockOpen w id :
  socket_state w id = Some CONNECTING ->
  step (SockOpen id) w
  = let w1 := (handleOpen (set_readyState id OPEN w)).2 in
    match sockets w !! id ≫= s_clearOnOpen with
    | Some tid => clearTimeout tid w1
    | None => w1
    end.
Proof.
  intros Hc. unfold step, enabled. rewrite bool_decide_eq_true_2 by exact Hc. reflexivity.
Qed.

Lemma step_open_calm id w :
  socket_state w id = Some CONNECTING ->
  calm_view (step (SockOpen id) w) = calm_view (set_reconnectAttempts 0 w).
Proof.
  intros Hc. rewrite (step_SockOpen w id Hc). cbv zeta.
  pose proof (handleOpen_calm (set_readyState id OPEN w)) as H.
  change (calm_view (set_reconnectAttempts 0 (set_readyState id OPEN w)))
    with (calm_view (set_reconnectAttempts 0 w)) in H.
  revert H. generalize (handleOpen (set_readyState id OPEN w)).2. intros w1 H.
  destruct (sockets w !! id ≫= s_clearOnOpen); exact H.
Qed.

(** ** Runs *)

Lemma run_cons te evs w : run (te :: evs) w = run evs (step_at te w).
Proof. reflexivity. Qed.

Lemma run_app evs1 evs2 w : run (evs1 ++ evs2) w = run evs2 (run evs1 w).
Proof. unfold run. apply foldl_app. Qed.

Lemma run_calm evs w :
  exhausted w -> Forall (fun te => forall id, te.2 <> SockOpen id) evs ->
  calm_view (run evs w) = calm_view w.
Proof.
  intros Hx Hevs. revert w Hx.
  induction Hevs as [|te evs Hte _ IH]; intros w Hx; [reflexivity|].
  rewrite run_cons.
  assert (Hs : calm_view (step_at te w) = calm_view w).
  { unfold step_at. rewrite step_calm; [reflexivity | exact Hx | exact Hte]. }
  rewrite IH; [exact Hs|]. eapply exhausted_calm; [exact Hs | exact Hx].
Qed.

(** The retry that [handleReconnect] schedules while attempts remain. *)
Lemma handleReconnect_schedules w :
  rc_enabled (reconnect (config w)) = true -> isIntentionalClose w = false ->
  ~ exhausted w ->
  let c := reconnect (config w) in
  let n := S (reconnectAttempts w) in
  let delay := Qmin (initialDelay c * backoffMultiplier c ^ (Z.of_nat n - 1))%Q
                    (maxDelay c) in
  reconnectAttempts (handleReconnect w) = n
  /\ scheduled (handleReconnect w) = scheduled w ++ [(nextTimer w, ReconnectCb, delay)]
  /\ timers (handleReconnect w)
     = timers w ++ [mkTimer (nextTimer w) ReconnectCb (now w + delay)%Q None]
  /\ reconnectTimer (handleReconnect w) = Some (nextTimer w)
  /\ state (connectionStatus (handleReconnect w)) = Reconnecting.
Proof.
  intros Hen Hint Hx c n delay.
  unfold handleReconnect. rewrite Hen, Hint. simpl.
  rewrite bool_decide_eq_false_2 by exact Hx.
  unfold setTimeout. simpl. repeat split; reflexivity.
Qed.

(** ** Sending *)

Lemma isConnected_true w :
  isConnected w = true <-> exists id, ws w = Some id /\ socket_state w id = Some OPEN.
Proof.
  unfold isConnected. destruct (ws w) as [id|].
  - rewrite bool_decide_eq_true. split; [eauto|]. intros (id' & [= <-] & H). exact H.
  - split; [discriminate|]. intros (id' & [=] & _).
Qed.

Lemma sendMessage_closed m w :
  isConnected w = false ->
  sendMessage m w
  = if mq_enabled (messageQueueCfg (config w))
    then (Return false, queueMessage m w)
    else (Throw "WebSocket not connected and message queue disabled", w).
Proof.
  unfold isConnected, sendMessage. destruct (ws w); [|reflexivity].
  intros ->. reflexivity.
Qed.

Lemma sendMessage_open m w id :
  ws w = Some id -> socket_state w id = Some OPEN ->
  sendMessage m w
  = match JSON_stringify (host w) m with
    | inl data => (Return true, set_wire (wire w ++ [(id, data)]) w)
    | inr e => (Return false, emitError e w)
    end.
Proof.
  intros Hws Hs. unfold sendMessage. rewrite Hws.
  rewrite bool_decide_eq_true_2 by exact Hs. reflexivity.
Qed.

Lemma sendMessage_open_wire m w id :
  ws w = Some id -> socket_state w id = Some OPEN ->
  (exists b, (sendMessage m w).1 = Return b)
  /\ wire (sendMessage m w).2 = wire w ++ transmit (host w) id [m]
  /\ link_view (sendMessage m w).2 = link_view w.
Proof.
  intros Hws Hs. rewrite (sendMessage_open m w id Hws Hs). unfold transmit. simpl.
  destruct (JSON_stringify (host w) m); simpl; (split; [eauto|]; split; [|reflexivity]).
  - reflexivity.
  - rewrite app_nil_r. reflexivity.
Qed.

Lemma link_open w w' id :
  link_view w' = link_view w -> ws w = Some id -> socket_state w id = Some OPEN ->
  ws w' = Some id /\ socket_state w' id = Some OPEN /\ host w' = host w.
Proof.
  intros H Hws Hs. unfold socket_state in *.
  pose proof (f_equal (fun v => v.1.1.1.1.1.1) H) as H1.
  pose proof (f_equal (fun v => v.1.1.1.1.1.2) H) as H2.
  pose proof (f_equal (fun v => v.1.1.1.1.2) H) as H3.
  simpl in H1, H2, H3. rewrite H1, H2, H3. auto.
Qed.

Lemma transmit_app h id l1 l2 : transmit h id (l1 ++ l2) = transmit h id l1 ++ transmit h id l2.
Proof. unfold transmit. apply omap_app. Qed.

Lemma forEach_send_open q w id :
  ws w = Some id -> socket_state w id = Some OPEN ->
  (forEach_send q w).1 = Return tt
  /\ wire (forEach_send q w).2 = wire w ++ transmit (host w) id q
  /\ link_view (forEach_send q w).2 = link_view w.
Proof.
  revert w. induction q as [|m q IH]; intros w Hws Hs.
  - simpl. rewrite app_nil_r. auto.
  - simpl forEach_send.
    destruct (sendMessage_open_wire m w id Hws Hs) as ((b & Hb) & Hw & Hl).
    destruct (sendMessage m w) as [r w']. simpl in Hb, Hw, Hl. subst r.
    destruct (link_open _ _ _ Hl Hws Hs) as (Hws' & Hs' & Hh).
    destruct (IH w' Hws' Hs') as (Hr & Hw2 & Hl2).
    split; [exact Hr|]. split.
    + change (m :: q) with ([m] ++ q). rewrite transmit_app.
      rewrite Hw2, Hw, Hh, <- app_assoc. reflexivity.
    + rewrite Hl2. exact Hl.
Qed.

Lemma startHeartbeat_link w :
  wire (startHeartbeat w) = wire w /\ link_view (startHeartbeat w) = link_view w.
Proof.
  unfold startHeartbeat, stopHeartbeat, setInterval.
  repeat case_match; simplify_eq; auto.
Qed.

Lemma handleOpen_open w id :
  ws w = Some id -> socket_state w id = Some OPEN ->
  (handleOpen w).1 = Return tt
  /\ wire (handleOpen w).2 = wire w ++ transmit (host w) id (init_message w :: messageQueue w)
  /\ messageQueue (handleOpen w).2 = [].
Proof.
  intros Hws Hs. unfold handleOpen. cbv zeta.
  set (w2 := updateConnectionStatus _ _ _ _).
  assert (Hl2 : link_view w2 = link_view w) by reflexivity.
  destruct (link_open _ _ _ Hl2 Hws Hs) as (Hws2 & Hs2 & Hh2).
  change (MsgInit _ _ _ _ _) with (init_message w).
  destruct (sendMessage_open_wire (init_message w) w2 id Hws2 Hs2) as ((b & Hb) & Hw & Hl).
  destruct (sendMessage (init_message w) w2) as [r w3]. simpl in Hb, Hw, Hl. subst r.
  set (w4 := if hb_enabled (heartbeat (config w3)) then startHeartbeat w3 else w3).
  assert (H4 : wire w4 = wire w3 /\ link_view w4 = link_view w3).
  { unfold w4. destruct (hb_enabled _); [apply startHeartbeat_link | auto]. }
  destruct H4 as (Hw4 & Hl4).
  assert (Hl40 : link_view w4 = link_view w) by (rewrite Hl4, Hl; exact Hl2).
  assert (Hq : messageQueue w4 = messageQueue w)
    by exact (f_equal (fun v => v.1.1.1.2) Hl40).
  destruct (link_open _ _ _ Hl40 Hws Hs) as (Hws4 & Hs4 & Hh4).
  change (transmit (host w) id (init_message w :: messageQueue w))
    with (transmit (host w) id ([init_message w] ++ messageQueue w)).
  rewrite transmit_app, app_assoc.
  assert (Hwire4 : wire w4 = wire w ++ transmit (host w) id [init_message w]).
  { rewrite Hw4, Hw. reflexivity. }
  destruct (messageQueue w4) as [|m q] eqn:E.
  - simpl. rewrite <- Hq. simpl. rewrite app_nil_r. auto.
  - unfold flushMessageQueue. rewrite E.
    destruct (forEach_send_open (m :: q) (set_messageQueue [] w4) id Hws4 Hs4)
      as (Hr & Hwf & Hlf).
    split; [exact Hr|]. split.
    + rewrite Hwf. simpl wire. rewrite Hwire4. simpl host. rewrite Hh4, <- Hq. reflexivity.
    + exact (f_equal (fun v => v.1.1.1.2) Hlf).
Qed.

Lemma set_readyState_state w id r s :
  sockets w !! id = Some s -> socket_state (set_readyState id r w) id = Some r.
Proof.
  intros H. unfold socket_state, set_readyState. simpl.
  rewrite list_lookup_alter, H. case_decide; [reflexivity | congruence].
Qed.

Lemma init_message_set_readyState id r w :
  init_message (set_readyState id r w) = init_message w.
Proof. reflexivity. Qed.

Lemma step_open_wire w id :
  ws w = Some id -> socket_state w id = Some CONNECTING ->
  wire (step (SockOpen id) w)
  = wire w ++ transmit (host w) id (init_message w :: messageQueue w)
  /\ messageQueue (step (SockOpen id) w) = [].
Proof.
  intros Hws Hc. rewrite (step_SockOpen w id Hc). cbv zeta.
  assert (exists s, sockets w !! id = Some s) as (s & Hsock).
  { unfold socket_state in Hc. destruct (sockets w !! id); [eauto | discriminate]. }
  destruct (handleOpen_open (set_readyState id OPEN w) id Hws
              (set_readyState_state w id OPEN s Hsock)) as (_ & Hw & Hq).
  rewrite init_message_set_readyState in Hw.
  revert Hw Hq. generalize (handleOpen (set_readyState id OPEN w)).2. intros w1 Hw Hq.
  destruct (sockets w !! id ≫= s_clearOnOpen); split; assumption.
Qed.

(** ** Only the current socket is live *)

Lemma one_live_net w w' : net_view w' = net_view w -> one_live_socket w -> one_live_socket w'.
Proof.
  intros H Hl id s. 
  pose proof (f_equal fst H) as H1. pose proof (f_equal snd H) as H2. simpl in H1, H2.
  rewrite H1, H2. apply Hl.
Qed.

Lemma sendMessage_net m w : net_view (sendMessage m w).2 = net_view w.
Proof. unfold sendMessage. repeat case_match; reflexivity. Qed.

Lemma forEach_send_net q w : net_view (forEach_send q w).2 = net_view w.
Proof.
  revert w. induction q as [|m q IH]; intros w; [reflexivity|].
  simpl. pose proof (sendMessage_net m w) as Hs.
  destruct (sendMessage m w) as [[b|e] w']; simpl in *; [rewrite IH|]; exact Hs.
Qed.

Lemma flushMessageQueue_net w : net_view (flushMessageQueue w).2 = net_view w.
Proof.
  unfold flushMessageQueue. case_match; [reflexivity|].
  rewrite forEach_send_net. reflexivity.
Qed.

Lemma stopHeartbeat_net w : net_view (stopHeartbeat w) = net_view w.
Proof. unfold stopHeartbeat. repeat case_match; reflexivity. Qed.

Lemma startHeartbeat_net w : net_view (startHeartbeat w) = net_view w.
Proof. unfold startHeartbeat, setInterval. rewrite <- (stopHeartbeat_net w). reflexivity. Qed.

Lemma heartbeat_callback_net w : net_view (heartbeat_callback w) = net_view w.
Proof.
  unfold heartbeat_callback. case_match; [|reflexivity].
  match goal with |- context [sendMessage ?m ?w0] =>
    pose proof (sendMessage_net m w0) as Hs;
    destruct (sendMessage m w0) as [[b|e] w'] end;
  simpl in Hs; rewrite <- Hs; reflexivity.
Qed.

Lemma handleReconnect_net w : net_view (handleReconnect w) = net_view w.
Proof. unfold handleReconnect, setTimeout. repeat case_match; simplify_eq; reflexivity. Qed.

Lemma handleOpen_net w : net_view (handleOpen w).2 = net_view w.
Proof.
  unfold handleOpen. cbv zeta.
  match goal with |- context [sendMessage ?m ?w0] =>
    pose proof (sendMessage_net m w0) as Hs;
    destruct (sendMessage m w0) as [[b|e] w'] end; simpl in Hs; [|exact Hs].
  assert (H2 : net_view (if hb_enabled (heartbeat (config w'))
                          then startHeartbeat w' else w') = net_view w).
  { destruct (hb_enabled _); [rewrite startHeartbeat_net|]; exact Hs. }
  destruct (messageQueue _); [exact H2|].
  rewrite flushMessageQueue_net. exact H2.
Qed.

Lemma handleClose_net w : net_view (handleClose w) = net_view w.
Proof.
  unfold handleClose. pose proof (stopHeartbeat_net w) as Hs.
  case_match; [rewrite handleReconnect_net|]; exact Hs.
Qed.

Lemma handleMessage_net p w : net_view (handleMessage p w) = net_view w.
Proof. unfold handleMessage, handlePong. repeat case_match; reflexivity. Qed.

Lemma live_close_socket s :
  readyState (close_socket s) = CONNECTING \/ readyState (close_socket s) = OPEN -> False.
Proof.
  unfold close_socket.
  destruct (readyState s) eqn:E; simpl; rewrite ?E; intros [|]; discriminate.
Qed.

Lemma ws_close_live id w : one_live_socket w -> one_live_socket (ws_close id w).
Proof.
  intros Hl id' s. unfold ws_close. simpl. rewrite list_lookup_alter.
  case_decide as Hid.
  - subst id'. destruct (sockets w !! id) as [s0|] eqn:E; [|discriminate].
    simpl. intros [= <-] Hlive. destruct (live_close_socket _ Hlive).
  - apply Hl.
Qed.

(** After [close()] on the current socket no socket is live. *)
Lemma ws_close_current_dead id w :
  one_live_socket w -> ws w = Some id ->
  forall id' s, sockets (ws_close id w) !! id' = Some s ->
    readyState s = CONNECTING \/ readyState s = OPEN -> False.
Proof.
  intros Hl Hws id' s. unfold ws_close. simpl. rewrite list_lookup_alter.
  case_decide as Hid.
  - subst id'. destruct (sockets w !! id) as [s0|] eqn:E; [|discriminate].
    simpl. intros [= <-] Hlive. destruct (live_close_socket _ Hlive).
  - intros Hs Hlive. specialize (Hl _ _ Hs Hlive). congruence.
Qed.

Lemma cleanup_live w : one_live_socket w -> one_live_socket (cleanup w).
Proof.
  intros Hl. unfold cleanup. cbv zeta.
  set (w1 := stopHeartbeat w).
  assert (H1 : one_live_socket w1)
    by (eapply one_live_net; [apply stopHeartbeat_net | exact Hl]).
  set (w2 := match reconnectTimer w1 with Some id => _ | None => w1 end).
  assert (H2 : one_live_socket w2).
  { eapply one_live_net; [|exact H1]. unfold w2. case_match; reflexivity. }
  clearbody w2. destruct (ws w2) as [id|] eqn:Hws; [|exact H2].
  intros id' s Hs Hlive. exfalso.
  exact (ws_close_current_dead id w2 H2 Hws id' s Hs Hlive).
Qed.

Lemma guard_no_live w :
  one_live_socket w ->
  ws w ≫= socket_state w <> Some OPEN -> ws w ≫= socket_state w <> Some CONNECTING ->
  forall id s, sockets w !! id = Some s ->
    readyState s = CONNECTING \/ readyState s = OPEN -> False.
Proof.
  intros Hl Ho Hc id s Hs Hlive.
  pose proof (Hl _ _ Hs Hlive) as Hws.
  rewrite Hws in Ho, Hc. simpl in Ho, Hc. unfold socket_state in Ho, Hc.
  rewrite Hs in Ho, Hc. simpl in Ho, Hc.
  destruct Hlive as [Hr|Hr]; rewrite Hr in Ho, Hc; congruence.
Qed.

Lemma fresh_socket_live w w' s0 :
  (forall id s, sockets w !! id = Some s ->
     readyState s = CONNECTING \/ readyState s = OPEN -> False) ->
  sockets w' = sockets w ++ [s0] -> ws w' = Some (length (sockets w)) ->
  one_live_socket w'.
Proof.
  intros Hdead Hs Hws id s. rewrite Hs, Hws, lookup_app.
  destruct (sockets w !! id) as [s1|] eqn:E.
  - intros [= <-] Hlive. destruct (Hdead _ _ E Hlive).
  - intros Hlast _. f_equal. apply lookup_ge_None in E.
    apply lookup_lt_Some in Hlast. simpl in Hlast. lia.
Qed.

Lemma connect_live w : one_live_socket w -> one_live_socket (connect w).
Proof.
  intros Hl. unfold connect.
  destruct (ws w ≫= socket_state w) as [[]|] eqn:Hcur; try exact Hl.
  all: assert (Hdead := guard_no_live w Hl ltac:(congruence) ltac:(congruence)).
  all: cbv zeta; case_match;
    [ eapply one_live_net; [|exact Hl]; rewrite handleReconnect_net; reflexivity
    | eapply (fresh_socket_live w); [exact Hdead | reflexivity | reflexivity] ].
Qed.

Lemma connect_timeout_callback_live w :
  one_live_socket w -> one_live_socket (connect_timeout_callback w).
Proof.
  intros Hl. unfold connect_timeout_callback. repeat case_match; try exact Hl.
  all: eapply one_live_net; [apply handleReconnect_net|]; try exact Hl.
  apply ws_close_live, Hl.
Qed.

Lemma run_callback_live cb w : one_live_socket w -> one_live_socket (run_callback cb w).
Proof.
  intros Hl. destruct cb; simpl.
  - apply connect_timeout_callback_live, Hl.
  - apply connect_live, Hl.
  - eapply one_live_net; [apply heartbeat_callback_net | exact Hl].
  - unfold pong_timeout_callback. case_match; [apply ws_close_live|]; exact Hl.
Qed.

Lemma set_readyState_open_live id w :
  one_live_socket w -> socket_state w id = Some CONNECTING ->
  one_live_socket (set_readyState id OPEN w).
Proof.
  intros Hl Hc id' s. unfold set_readyState. simpl. rewrite list_lookup_alter.
  unfold socket_state in Hc.
  case_decide as Hid.
  - subst id'. destruct (sockets w !! id) as [s0|] eqn:E; [|discriminate].
    intros _ _. apply (Hl id s0 E). left. simpl in Hc. congruence.
  - apply Hl.
Qed.

Lemma set_readyState_closed_live id w :
  one_live_socket w -> one_live_socket (set_readyState id CLOSED w).
Proof.
  intros Hl id' s. unfold set_readyState. simpl. rewrite list_lookup_alter.
  case_decide as Hid.
  - subst id'. destruct (sockets w !! id) as [s0|] eqn:E; [|discriminate].
    simpl. intros [= <-]. simpl. intros [|]; discriminate.
  - apply Hl.
Qed.

Lemma step_live ev w : one_live_socket w -> one_live_socket (step ev w).
Proof.
  intros Hl. unfold step. destruct (enabled ev w) eqn:Hen; [|exact Hl]. simpl negb. cbv iota.
  destruct ev; try exact Hl.
  - apply connect_live, Hl.
  - unfold disconnect. eapply one_live_net;
      [|apply (cleanup_live (set_isIntentionalClose true w)); exact Hl]. reflexivity.
  - unfold destroy. eapply one_live_net;
      [|apply (cleanup_live (set_isIntentionalClose true w)); exact Hl]. reflexivity.
  - eapply one_live_net; [apply sendMessage_net | exact Hl].
  - simpl in Hen. apply bool_decide_eq_true in Hen.
    pose proof (set_readyState_open_live id w Hl Hen) as H1.
    assert (H2 : one_live_socket (handleOpen (set_readyState id OPEN w)).2)
      by (eapply one_live_net; [apply handleOpen_net | exact H1]).
    revert H2. generalize (handleOpen (set_readyState id OPEN w)).2. intros w1 H2.
    destruct (sockets w !! id ≫= s_clearOnOpen); exact H2.
  - eapply one_live_net; [apply handleMessage_net | exact Hl].
  - eapply one_live_net; [apply handleClose_net|]. apply set_readyState_closed_live, Hl.
  - case_match; [|exact Hl]. apply run_callback_live.
    eapply one_live_net; [|exact Hl]. unfold rearm. case_match; reflexivity.
Qed.

Lemma run_live evs w : one_live_socket w -> one_live_socket (run evs w).
Proof.
  revert w. induction evs as [|te evs IH]; intros w Hl; [exact Hl|].
  rewrite run_cons. apply IH. unfold step_at. apply step_live. exact Hl.
Qed.

Lemma new_client_live h u e st t0 o : one_live_socket (new_WebSocketClient h u e st t0 o).
Proof.
  unfold new_WebSocketClient. destruct (getSessionId _ _ _). intros id sock. simpl.
  rewrite lookup_nil. discriminate.
Qed.

(** ** After [disconnect()] *)

(** While the close is intentional, [handleReconnect] does nothing. *)
Lemma handleReconnect_intentional w :
  isIntentionalClose w = true -> handleReconnect w = w.
Proof. intros H. unfold handleReconnect. rewrite H, orb_true_r. reflexivity. Qed.

Lemma clearTimeout_timers tid w t :
  t ∈ timers (clearTimeout tid w) -> t ∈ timers w /\ t_id t <> tid.
Proof. unfold clearTimeout. simpl. rewrite list_elem_of_filter. tauto. Qed.

Lemma stopHeartbeat_timers w t : t ∈ timers (stopHeartbeat w) -> t ∈ timers w.
Proof.
  unfold stopHeartbeat. repeat case_match; simpl; rewrite ?list_elem_of_filter; tauto.
Qed.

Lemma rearm_timers x w t :
  t ∈ timers (rearm x w) -> exists t0, t0 ∈ timers w /\ t_cb t0 = t_cb t.
Proof.
  unfold rearm. case_match; simpl.
  - rewrite list_elem_of_fmap. intros (t0 & -> & Hin). exists t0. split; [exact Hin|].
    case_bool_decide; reflexivity.
  - rewrite list_elem_of_filter. intros [_ Hin]. eauto.
Qed.

(** What [stopHeartbeat] leaves alone. *)
Lemma stopHeartbeat_rest w :
  isIntentionalClose (stopHeartbeat w) = isIntentionalClose w
  /\ connectionStatus (stopHeartbeat w) = connectionStatus w
  /\ reconnectTimer (stopHeartbeat w) = reconnectTimer w
  /\ net_view (stopHeartbeat w) = net_view w.
Proof. unfold stopHeartbeat. repeat case_match; auto. Qed.

Lemma find_timer_elem tid w t : find_timer tid w = Some t -> t ∈ timers w.
Proof.
  unfold find_timer. destruct (list_find _ _) as [[k x]|] eqn:E; [|discriminate].
  intros [= <-]. apply list_find_Some in E as (Hk & _). simpl.
  eapply list_elem_of_lookup_2, Hk.
Qed.

(** [disconnect()] brings the client to rest when the only retry that may be
    pending is the one whose handle the client holds. *)
Lemma disconnect_at_rest w :
  one_live_socket w ->
  (forall t, t ∈ timers w -> t_cb t = ReconnectCb -> reconnectTimer w = Some (t_id t)) ->
  at_rest (disconnect w).
Proof.
  intros Hl Hheld. unfold disconnect, cleanup. cbv zeta.
  set (w0 := set_isIntentionalClose true w).
  destruct (stopHeartbeat_rest w0) as (Hi & _ & Hr & Hn).
  set (w1 := stopHeartbeat w0) in *.
  assert (Ht1 : forall t, t ∈ timers w1 -> t ∈ timers w)
    by (intros t Ht; apply (stopHeartbeat_timers w0), Ht).
  set (w2 := match reconnectTimer w1 with
             | Some id => set_reconnectTimer None (clearTimeout id w1)
             | None => w1
             end).
  assert (H2 : isIntentionalClose w2 = true /\ net_view w2 = net_view w
               /\ forall t, t ∈ timers w2 -> t_cb t <> ReconnectCb).
  { unfold w2. destruct (reconnectTimer w1) as [rid|] eqn:Er.
    - split; [exact Hi|]. split; [exact Hn|]. intros t Ht Hcb.
      apply (clearTimeout_timers rid w1) in Ht as (Ht & Hne).
      pose proof (Hheld t (Ht1 t Ht) Hcb) as Hh.
      assert (Hr' : _ = reconnectTimer w) by exact Hr.
      congruence.
    - split; [exact Hi|]. split; [exact Hn|]. intros t Ht Hcb.
      pose proof (Hheld t (Ht1 t Ht) Hcb) as Hh.
      assert (Hr' : _ = reconnectTimer w) by exact Hr.
      congruence. }
  clearbody w2. destruct H2 as (Hi2 & Hn2 & Ht2).
  assert (Hl2 : one_live_socket w2) by (eapply one_live_net; [exact Hn2 | exact Hl]).
  destruct (ws w2) as [id|] eqn:Hws.
  - repeat split; try assumption; try reflexivity.
    intros id' s Hs. destruct (readyState s) eqn:Er; auto; exfalso.
    + apply (ws_close_current_dead id w2 Hl2 Hws id' s Hs). auto.
    + apply (ws_close_current_dead id w2 Hl2 Hws id' s Hs). auto.
  - repeat split; try assumption; try reflexivity.
    intros id' s Hs. destruct (readyState s) eqn:Er; auto; exfalso.
    + pose proof (Hl2 id' s Hs (or_introl Er)). congruence.
    + pose proof (Hl2 id' s Hs (or_intror Er)). congruence.
Qed.

(** A client at rest stays at rest, and schedules no retry, whatever happens
    short of a call of [connect()]. *)
Lemma at_rest_closed w :
  at_rest w -> forall id r, socket_state w id = Some r -> r = CLOSING \/ r = CLOSED.
Proof.
  intros (_ & _ & _ & Hsock & _) id r. unfold socket_state.
  destruct (sockets w !! id) as [s|] eqn:E; [|discriminate].
  intros [= <-]. apply (Hsock id s E).
Qed.

Lemma at_rest_cleanup w :
  at_rest w -> at_rest (cleanup (set_isIntentionalClose true w)).
Proof.
  intros (Hi & Hst & Hws & Hsock & Hnr). unfold cleanup. cbv zeta.
  set (w0 := set_isIntentionalClose true w).
  destruct (stopHeartbeat_rest w0) as (Hi1 & Hc1 & _ & Hn).
  pose proof (stopHeartbeat_timers w0) as Ht1.
  set (w1 := stopHeartbeat w0) in *.
  assert (Hws1 : ws w1 = None) by (rewrite <- Hws; exact (f_equal fst Hn)).
  assert (Hs1 : sockets w1 = sockets w) by exact (f_equal snd Hn).
  assert (Hst1 : state (connectionStatus w1) = Disconnected)
    by (rewrite <- Hst; exact (f_equal state Hc1)).
  clearbody w1.
  destruct (reconnectTimer w1) as [rid|]; cbv iota;
    [change (ws (set_reconnectTimer None (clearTimeout rid w1))) with (ws w1)|];
    rewrite Hws1; cbv iota.
  - split; [exact Hi1|]. split; [exact Hst1|]. split; [exact Hws1|].
    split; [intros id s Hs; apply (Hsock id s); rewrite <- Hs1; exact Hs|].
    intros t Ht. apply list_elem_of_filter in Ht as [_ Ht]. apply Hnr, Ht1, Ht.
  - split; [exact Hi1|]. split; [exact Hst1|]. split; [exact Hws1|].
    split; [intros id s Hs; apply (Hsock id s); rewrite <- Hs1; exact Hs|].
    intros t Ht. apply Hnr, Ht1, Ht.
Qed.

(** A client at rest stays at rest, and schedules no retry, whatever happens
    short of a call of [connect()]. *)
Lemma at_rest_step ev w :
  at_rest w -> ev <> Connect ->
  at_rest (step ev w) /\ retry_count (step ev w) = retry_count w.
Proof.
  intros Hrest Hev.
  pose proof (at_rest_closed w Hrest) as Hdead.
  pose proof Hrest as (Hi & Hst & Hws & Hsock & Hnr).
  unfold step. destruct (enabled ev w) eqn:Hen; [|auto]. simpl negb. cbv iota.
  destruct ev as [ | | |m|h|h|h|h|h|h|id|id p|id|id|tid]; try (split; [exact Hrest | reflexivity]).
  - congruence.
  - (* disconnect() *)
    split; [|apply (calm_retry_count _ _ (disconnect_calm w))].
    destruct (at_rest_cleanup w Hrest) as (H1 & _ & H3 & H4 & H5).
    exact (conj H1 (conj eq_refl (conj H3 (conj H4 H5)))).
  - (* destroy() *)
    split; [|apply (calm_retry_count _ _ (destroy_calm w))].
    destruct (at_rest_cleanup w Hrest) as (H1 & H2 & H3 & H4 & H5).
    exact (conj H1 (conj H2 (conj H3 (conj H4 H5)))).
  - (* sendMessage *)
    split; [|apply (calm_retry_count _ _ (sendMessage_calm m w))].
    unfold sendMessage. rewrite Hws. destruct (mq_enabled _); exact Hrest.
  - (* open *)
    simpl in Hen. apply bool_decide_eq_true in Hen.
    destruct (Hdead _ _ Hen); discriminate.
  - (* message *)
    simpl in Hen. apply bool_decide_eq_true in Hen.
    destruct (Hdead _ _ Hen); discriminate.
  - (* close *)
    unfold handleClose. cbv zeta.
    set (wA := set_readyState id CLOSED w).
    destruct (stopHeartbeat_rest wA) as (Hi1 & _ & _ & Hn).
    pose proof (stopHeartbeat_timers wA) as Ht1.
    pose proof (stopHeartbeat_calm wA) as Hc1.
    set (wB := stopHeartbeat wA) in *.
    assert (HiB : isIntentionalClose wB = true) by (rewrite Hi1; exact Hi).
    rewrite HiB. simpl negb. cbv iota.
    split; [|exact (calm_retry_count _ _ Hc1)].
    split; [exact HiB|]. split; [reflexivity|].
    split; [rewrite <- Hws; exact (f_equal fst Hn)|].
    split.
    + intros id' s. change (sockets (updateConnectionStatus Disconnected None None wB))
        with (sockets wB).
      rewrite (f_equal snd Hn : sockets wB = sockets wA).
      unfold wA, set_readyState. simpl. rewrite list_lookup_alter.
      case_decide as Hid; [|apply Hsock].
      destruct (sockets w !! id); [|discriminate]. intros [= <-]. right. reflexivity.
    + intros t Ht. apply Hnr, (Ht1 t), Ht.
  - (* a timer fires *)
    destruct (find_timer tid w) as [x|] eqn:Ef; [|split; [exact Hrest | reflexivity]].
    pose proof (Hnr x (find_timer_elem tid w x Ef)) as Hx.
    assert (HA : at_rest (rearm x w)).
    { split; [|split; [|split; [|split]]].
      - unfold rearm. case_match; exact Hi.
      - unfold rearm. case_match; exact Hst.
      - unfold rearm. case_match; exact Hws.
      - unfold rearm. case_match; exact Hsock.
      - intros t Ht. apply rearm_timers in Ht as (t0 & Ht0 & <-). apply Hnr, Ht0. }
    assert (Hsame : run_callback (t_cb x) (rearm x w) = rearm x w).
    { destruct HA as (_ & HstA & HwsA & _).
      destruct (t_cb x); simpl.
      - unfold connect_timeout_callback. rewrite HstA. reflexivity.
      - congruence.
      - unfold heartbeat_callback, isConnected. rewrite HwsA. reflexivity.
      - unfold pong_timeout_callback. rewrite HwsA. reflexivity. }
    rewrite Hsame. split; [exact HA|]. apply (calm_retry_count _ _ (rearm_calm x w)).
Qed.

Lemma at_rest_run evs w :
  at_rest w -> Forall (fun te => te.2 <> Connect) evs ->
  at_rest (run evs w) /\ retry_count (run evs w) = retry_count w.
Proof.
  intros Hrest Hevs. revert w Hrest.
  induction Hevs as [|te evs Hte _ IH]; intros w Hrest; [auto|].
  rewrite run_cons. unfold step_at.
  destruct (at_rest_step te.2 (set_now te.1 w) Hrest Hte) as (Hr & Hc).
  destruct (IH _ Hr) as (Hr' & Hc'). split; [exact Hr'|]. rewrite Hc'. exact Hc.
Qed.

(** Where the claim holds: when no retry other than the one whose handle the
    client holds is pending, [disconnect()] is final.  Whatever events follow,
    short of a call of [connect()], the status stays [disconnected] and no
    retry is scheduled. *)
Lemma disconnect_is_final w evs :
  one_live_socket w ->
  (forall t, t ∈ timers w -> t_cb t = ReconnectCb -> reconnectTimer w = Some (t_id t)) ->
  Forall (fun te => te.2 <> Connect) evs ->
  state (connectionStatus (run evs (disconnect w))) = Disconnected
  /\ retry_count (run evs (disconnect w)) = retry_count w.
Proof.
  intros Hl Hheld Hevs.
  destruct (at_rest_run evs (disconnect w) (disconnect_at_rest w Hl Hheld) Hevs)
    as ((_ & Hst & _) & Hc).
  split; [exact Hst|]. rewrite Hc. apply (calm_retry_count _ _ (disconnect_calm w)).
Qed.

(** ** After the last attempt *)

Lemma handleReconnect_gives_up w :
  rc_enabled (reconnect (config w)) = true -> isIntentionalClose w = false ->
  exhausted w ->
  handleReconnect w
  = updateConnectionStatus Error (Some "Max reconnection attempts reached") None w.
Proof.
  intros Hen Hint Hx. unfold handleReconnect. rewrite Hen, Hint. simpl.
  rewrite bool_decide_eq_true_2 by exact Hx. reflexivity.
Qed.

Lemma dead_not_open w :
  (forall id s, sockets w !! id = Some s ->
     readyState s = CLOSING \/ readyState s = CLOSED) ->
  forall id r, socket_state w id = Some r -> r = CLOSING \/ r = CLOSED.
Proof.
  intros Hsock id r. unfold socket_state.
  destruct (sockets w !! id) as [s|] eqn:E; [|discriminate].
  intros [= <-]. apply (Hsock id s E).
Qed.

Lemma close_socket_dead s :
  readyState (close_socket s) = CLOSING \/ readyState (close_socket s) = CLOSED.
Proof. unfold close_socket. destruct (readyState s) eqn:E; simpl; rewrite ?E; auto. Qed.

(** The close event of a socket, for a client that is not closing
    intentionally and has used up its attempts. *)
Lemma handleClose_gives_up id w :
  rc_enabled (reconnect (config w)) = true -> isIntentionalClose w = false ->
  exhausted w ->
  (forall id' s, sockets w !! id' = Some s -> id' <> id ->
     readyState s = CLOSING \/ readyState s = CLOSED) ->
  (forall t, t ∈ timers w -> t_cb t <> ReconnectCb) ->
  gave_up (handleClose (set_readyState id CLOSED w))
  /\ retry_count (handleClose (set_readyState id CLOSED w)) = retry_count w.
Proof.
  intros Hen Hint Hx Hsock Hnr.
  unfold handleClose. cbv zeta.
  set (wA := set_readyState id CLOSED w).
  destruct (stopHeartbeat_rest wA) as (Hi1 & _ & _ & Hn).
  pose proof (stopHeartbeat_timers wA) as Ht1.
  pose proof (stopHeartbeat_calm wA) as Hc1.
  set (wB := stopHeartbeat wA) in *.
  assert (HiB : isIntentionalClose wB = false) by (rewrite Hi1; exact Hint).
  rewrite HiB. simpl negb. cbv iota.
  set (wC := updateConnectionStatus Reconnecting None None wB).
  assert (HcC : calm_view wC = calm_view w) by exact Hc1.
  assert (HxC : exhausted wC) by (eapply exhausted_calm; [exact HcC | exact Hx]).
  assert (HenC : rc_enabled (reconnect (config wC)) = true)
    by (rewrite (calm_config _ _ HcC); exact Hen).
  rewrite (handleReconnect_gives_up wC HenC HiB HxC).
  split; [|exact (calm_retry_count _ _ HcC)].
  split; [reflexivity|]. split; [exact HxC|]. split; [exact HenC|]. split; [exact HiB|].
  split.
  - intros id' s.
    change (sockets (updateConnectionStatus Error
                       (Some "Max reconnection attempts reached") None wC))
      with (sockets wB).
    rewrite (f_equal snd Hn : sockets wB = sockets wA).
    unfold wA, set_readyState. simpl. rewrite list_lookup_alter.
    case_decide as Hid.
    + destruct (sockets w !! id); [|discriminate]. intros [= <-]. right. reflexivity.
    + intros Hs. apply (Hsock id' s Hs). congruence.
  - intros t Ht. apply Hnr, (Ht1 t), Ht.
Qed.

(** A client that has given up stays so, with status [error] and without
    scheduling a retry, whatever the sockets and the timers do and whatever
    the caller sends or subscribes to; only [connect()], [disconnect()] or
    [destroy()] change that. *)
Lemma gave_up_step ev w :
  gave_up w -> ev <> Connect -> ev <> Disconnect -> ev <> Destroy ->
  gave_up (step ev w) /\ retry_count (step ev w) = retry_count w.
Proof.
  intros Hg Hc Hd Hy.
  pose proof Hg as (Hst & Hx & Hen & Hint & Hsock & Hnr).
  pose proof (dead_not_open w Hsock) as Hdead.
  unfold step. destruct (enabled ev w) eqn:Hev; [|auto]. simpl negb. cbv iota.
  destruct ev as [ | | |m|h|h|h|h|h|h|id|id p|id|id|tid];
    try congruence; try (split; [exact Hg | reflexivity]).
  - (* sendMessage *)
    split; [|apply (calm_retry_count _ _ (sendMessage_calm m w))].
    assert (Hs : sendMessage m w
                 = if mq_enabled (messageQueueCfg (config w))
                   then (Return false, queueMessage m w)
                   else (Throw "WebSocket not connected and message queue disabled", w)).
    { apply sendMessage_closed. unfold isConnected. destruct (ws w) as [k|]; [|reflexivity].
      apply bool_decide_eq_false_2. intros Ho. destruct (Hdead _ _ Ho); discriminate. }
    rewrite Hs. destruct (mq_enabled _); exact Hg.
  - (* open *)
    simpl in Hev. apply bool_decide_eq_true in Hev. destruct (Hdead _ _ Hev); discriminate.
  - (* message *)
    simpl in Hev. apply bool_decide_eq_true in Hev. destruct (Hdead _ _ Hev); discriminate.
  - (* close *)
    apply handleClose_gives_up; auto. intros id' s Hs _. apply (Hsock id' s Hs).
  - (* a timer fires *)
    destruct (find_timer tid w) as [x|] eqn:Ef; [|split; [exact Hg | reflexivity]].
    pose proof (Hnr x (find_timer_elem tid w x Ef)) as Hxcb.
    assert (HA : gave_up (rearm x w)).
    { split; [|split; [|split; [|split; [|split]]]].
      - unfold rearm. case_match; exact Hst.
      - unfold rearm. case_match; exact Hx.
      - unfold rearm. case_match; exact Hen.
      - unfold rearm. case_match; exact Hint.
      - unfold rearm. case_match; exact Hsock.
      - intros t Ht. apply rearm_timers in Ht as (t0 & Ht0 & <-). apply Hnr, Ht0. }
    pose proof (calm_retry_count _ _ (rearm_calm x w)) as Hr.
    revert HA Hr. generalize (rearm x w). intros wA HA Hr.
    pose proof HA as (HstA & HxA & HenA & HintA & HsockA & HnrA).
    destruct (t_cb x); simpl.
    + unfold connect_timeout_callback. rewrite HstA. auto.
    + congruence.
    + assert (Hcn : isConnected wA = false).
      { unfold isConnected. destruct (ws wA) as [k|]; [|reflexivity].
        apply bool_decide_eq_false_2. intros Ho.
        destruct (dead_not_open wA HsockA _ _ Ho); discriminate. }
      unfold heartbeat_callback. rewrite Hcn. auto.
    + unfold pong_timeout_callback. destruct (ws wA) as [k|]; [|auto].
      split; [|exact Hr].
      split; [exact HstA|]. split; [exact HxA|]. split; [exact HenA|].
      split; [exact HintA|]. split; [|exact HnrA].
      intros id' s. unfold ws_close. simpl. rewrite list_lookup_alter.
      case_decide as Hid; [|apply HsockA].
      destruct (sockets wA !! k); [|discriminate]. intros [= <-]. apply close_socket_dead.
Qed.

Lemma gave_up_run evs w :
  gave_up w ->
  Forall (fun te => te.2 <> Connect /\ te.2 <> Disconnect /\ te.2 <> Destroy) evs ->
  gave_up (run evs w) /\ retry_count (run evs w) = retry_count w.
Proof.
  intros Hg Hevs. revert w Hg.
  induction Hevs as [|te evs (H1 & H2 & H3) _ IH]; intros w Hg; [auto|].
  rewrite run_cons. unfold step_at.
  destruct (gave_up_step te.2 (set_now te.1 w) Hg H1 H2 H3) as (Hg' & Hc).
  destruct (IH _ Hg') as (Hg'' & Hc'). split; [exact Hg''|]. rewrite Hc'. exact Hc.
Qed.

(** ** C1: the backoff schedule *)



(** ** C2: what [sendMessage] raises *)

(** C2, as the code has it.  [sendMessage] raises an exception to its caller
    exactly when the channel is not open and queueing is disabled, and it then
    notifies nobody and changes nothing.  In every other case it returns: with
    the channel down and queueing enabled the message is queued and [false]
    is returned; on an open channel a message that cannot be serialised is
    reported to every error handler and [false] is returned, any other is
    handed to the socket and [true] is returned. *)
Theorem sendMessage_outcomes (m : ClientMessage) (w : World) :
  ((exists e, (sendMessage m w).1 = Throw e)
   <-> isConnected w = false /\ mq_enabled (messageQueueCfg (config w)) = false)
  /\ (isConnected w = false -> mq_enabled (messageQueueCfg (config w)) = false ->
      sendMessage m w = (Throw "WebSocket not connected and message queue disabled", w))
  /\ (isConnected w = false -> mq_enabled (messageQueueCfg (config w)) = true ->
      sendMessage m w = (Return false, queueMessage m w))
  /\ (isConnected w = true -> forall e, JSON_stringify (host w) m = inr e ->
      (sendMessage m w).1 = Return false
      /\ delivered (sendMessage m w).2
         = delivered w ++ map (fun h => ErrorTo h e) (errorHandlers w)
      /\ wire (sendMessage m w).2 = wire w
      /\ messageQueue (sendMessage m w).2 = messageQueue w)
  /\ (isConnected w = true -> forall data, JSON_stringify (host w) m = inl data ->
      (sendMessage m w).1 = Return true
      /\ exists id, ws w = Some id /\ wire (sendMessage m w).2 = wire w ++ [(id, data)]).
Proof.
  destruct (isConnected w) eqn:Hc.
  - apply isConnected_true in Hc as (id & Hws & Hs).
    rewrite (sendMessage_open m w id Hws Hs).
    split; [|split; [discriminate|split; [discriminate|split]]].
    + split; [|intros [[=] _]]. intros [e He]. destruct (JSON_stringify _ _); discriminate.
    + intros _ e ->. simpl. auto.
    + intros _ data ->. simpl. eauto.
  - rewrite (sendMessage_closed m w Hc).
    split; [|split; [|split; [|split; discriminate]]].
    + destruct (mq_enabled _); simpl; split.
      * intros [e [=]].
      * intros [_ [=]].
      * auto.
      * eauto.
    + intros _ ->. reflexivity.
    + intros _ ->. reflexivity.
Qed.

Lemma sendMessage_outcomes_witness :
  sendMessage (MsgOther "chat" "hello") demo_world
  = (Return false, queueMessage (MsgOther "chat" "hello") demo_world)
  /\ (sendMessage (MsgOther "chat" "hello") connected_world).1 = Return true.
Proof.
  split.
  - apply (sendMessage_outcomes (MsgOther "chat" "hello") demo_world); reflexivity.
  - apply (proj2 (proj2 (proj2 (proj2
      (sendMessage_outcomes (MsgOther "chat" "hello") connected_world))))
      eq_refl "chat" eq_refl).
Defined.

(** With the channel down and queueing disabled, [sendMessage] does not
    return: it throws, and neither the error handler nor the connection-change
    handler is called. *)
Lemma sendMessage_throws :
  ~ (exists b, (sendMessage (MsgOther "chat" "hello") no_queue_world).1 = Return b)
  /\ errorHandlers no_queue_world = [1%nat]
  /\ connectionChangeHandlers no_queue_world = [2%nat]
  /\ delivered (sendMessage (MsgOther "chat" "hello") no_queue_world).2 = [].
Proof.
  split; [|vm_compute; auto]. intros [b Hb]. vm_compute in Hb. discriminate.
Qed.

(** ** C3: the message queue *)

Lemma queueMessage_queue m w :
  (0 < maxSize (messageQueueCfg (config w)))%nat ->
  (length (messageQueue w) <= maxSize (messageQueueCfg (config w)))%nat ->
  messageQueue (queueMessage m w)
  = drop (length (messageQueue w ++ [m]) - maxSize (messageQueueCfg (config w)))
      (messageQueue w ++ [m]).
Proof.
  intros Hpos Hlen. unfold queueMessage. simpl.
  rewrite length_app. simpl. case_bool_decide as Hfull.
  - assert (Heq : length (messageQueue w) = maxSize (messageQueueCfg (config w))) by lia.
    replace (length (messageQueue w) + 1 - maxSize (messageQueueCfg (config w)))%nat
      with 1%nat by lia.
    destruct (messageQueue w); [simpl in Heq; lia|]. reflexivity.
  - replace (length (messageQueue w) + 1 - maxSize (messageQueueCfg (config w)))%nat
      with 0%nat by lia.
    reflexivity.
Qed.

Lemma send_all_queue ms w :
  isConnected w = false -> mq_enabled (messageQueueCfg (config w)) = true ->
  (0 < maxSize (messageQueueCfg (config w)))%nat ->
  (length (messageQueue w) <= maxSize (messageQueueCfg (config w)))%nat ->
  messageQueue (send_all ms w)
  = drop (length (messageQueue w ++ ms) - maxSize (messageQueueCfg (config w)))
      (messageQueue w ++ ms)
  /\ wire (send_all ms w) = wire w
  /\ delivered (send_all ms w) = delivered w.
Proof.
  revert w. induction ms as [|m ms IH]; intros w Hc Hen Hpos Hlen.
  - simpl. rewrite app_nil_r.
    replace (length (messageQueue w) - _)%nat with 0%nat by lia. auto.
  - unfold send_all. simpl. fold (send_all ms (sendMessage m w).2).
    rewrite (sendMessage_closed m w Hc), Hen. simpl.
    pose proof (queueMessage_queue m w Hpos Hlen) as Hq.
    set (w' := queueMessage m w) in *.
    assert (Hcfg : config w' = config w) by reflexivity.
    assert (Hlen' : (length (messageQueue w') <= maxSize (messageQueueCfg (config w')))%nat).
    { rewrite Hq, Hcfg, length_drop. lia. }
    destruct (IH w') as (Hq' & Hw' & Hd'); try (rewrite ?Hcfg; assumption).
    split; [|split; [rewrite Hw'; reflexivity | rewrite Hd'; reflexivity]].
    rewrite Hq', Hcfg, Hq.
    set (k := maxSize (messageQueueCfg (config w))) in *.
    set (q := messageQueue w) in *.
    rewrite length_app, length_drop, !length_app. simpl length.
    replace (q ++ m :: ms) with ((q ++ [m]) ++ ms) by (rewrite <- app_assoc; reflexivity).
    assert (Hk : (length q + 1 - k <= length (q ++ [m]))%nat)
      by (rewrite length_app; simpl; lia).
    rewrite <- (drop_app_le (q ++ [m]) ms _ Hk), drop_drop.
    f_equal. rewrite length_app in *. simpl in *. lia.
Qed.

(** C3.  While the channel is not open and queueing is enabled (capacity at
    least 1, 50 as shipped), after any sequence of [sendMessage] calls the
    queue holds the most recent [maxSize] of the messages queued so far, in
    call order (the oldest are dropped first), and nothing has been sent; when
    the channel then opens, the [init] message and then the retained messages
    go to the socket in that order and the queue is empty. *)
Theorem queue_bounded_fifo (w : World) (ms : list ClientMessage) :
  isConnected w = false ->
  mq_enabled (messageQueueCfg (config w)) = true ->
  (0 < maxSize (messageQueueCfg (config w)))%nat ->
  (length (messageQueue w) <= maxSize (messageQueueCfg (config w)))%nat ->
  let k := maxSize (messageQueueCfg (config w)) in
  let sent := messageQueue w ++ ms in
  let kept := drop (length sent - k) sent in
  messageQueue (send_all ms w) = kept
  /\ (length kept <= k)%nat
  /\ wire (send_all ms w) = wire w
  /\ forall t id w2,
       messageQueue w2 = kept -> ws w2 = Some id ->
       socket_state w2 id = Some CONNECTING ->
       let w3 := step_at (t, SockOpen id) w2 in
       wire w3 = wire w2 ++ transmit (host w2) id (init_message (set_now t w2) :: kept)
       /\ messageQueue w3 = [].
Proof.
  intros Hc Hen Hpos Hlen k sent kept.
  destruct (send_all_queue ms w Hc Hen Hpos Hlen) as (Hq & Hw & _).
  split; [exact Hq|]. split; [unfold kept; rewrite length_drop; lia|].
  split; [exact Hw|].
  intros t id w2 Hq2 Hws Hs w3.
  destruct (step_open_wire (set_now t w2) id Hws Hs) as (Hw3 & Hq3).
  split; [|exact Hq3].
  unfold w3, step_at. simpl fst. simpl snd. rewrite Hw3.
  change (messageQueue (set_now t w2)) with (messageQueue w2). rewrite Hq2. reflexivity.
Qed.

Lemma queue_bounded_fifo_witness :
  messageQueue (send_all [MsgOther "a" ""; MsgOther "b" ""; MsgOther "c" ""] small_queue_world)
  = [MsgOther "b" ""; MsgOther "c" ""]
  /\ wire (run [(0, SendMessage (MsgOther "a" "")); (1, SendMessage (MsgOther "b" ""));
                (2, SendMessage (MsgOther "c" "")); (3, Connect); (4, SockOpen 0)]%Q
             small_queue_world)
     = [(0%nat, "init"); (0%nat, "b"); (0%nat, "c")].
Proof.
  assert (H1 : isConnected small_queue_world = false) by reflexivity.
  assert (H2 : mq_enabled (messageQueueCfg (config small_queue_world)) = true) by reflexivity.
  assert (H3 : (0 < maxSize (messageQueueCfg (config small_queue_world)))%nat)
    by (vm_compute; lia).
  assert (H4 : (length (messageQueue small_queue_world)
                <= maxSize (messageQueueCfg (config small_queue_world)))%nat)
    by (vm_compute; lia).
  destruct (queue_bounded_fifo small_queue_world
              [MsgOther "a" ""; MsgOther "b" ""; MsgOther "c" ""] H1 H2 H3 H4)
    as (Hq & _ & _ & Hopen).
  split; [exact Hq|].
  destruct (Hopen 4%Q 0%nat
              (run [(0, SendMessage (MsgOther "a" "")); (1, SendMessage (MsgOther "b" ""));
                    (2, SendMessage (MsgOther "c" "")); (3, Connect)]%Q small_queue_world))
    as (Hw & _); [vm_compute; reflexivity | reflexivity | vm_compute; reflexivity |].
  etransitivity; [|etransitivity; [exact Hw|]]; vm_compute; reflexivity.
Defined.

(** ** C4: the pong timeout *)

(** A pong cancels the timeout whose handle the client holds. *)
Lemma handlePong_cancels w tid :
  heartbeatTimeoutTimer w = Some tid ->
  timers (handlePong w) = filter (fun t => t_id t <> tid) (timers w)
  /\ heartbeatTimeoutTimer (handlePong w) = None.
Proof. intros H. unfold handlePong. rewrite H. split; reflexivity. Qed.

(** A ping overwrites the handle: a pong timeout that is still pending stays
    pending, and no later pong can cancel it. *)
Lemma ping_keeps_pending_timeout w :
  isConnected w = true ->
  timers (heartbeat_callback w)
  = timers w ++ [mkTimer (nextTimer w) PongTimeoutCb (now w + 30000)%Q None]
  /\ heartbeatTimeoutTimer (heartbeat_callback w) = Some (nextTimer w).
Proof.
  intros Hc. unfold heartbeat_callback. rewrite Hc.
  apply isConnected_true in Hc as (id & Hws & Hs).
  rewrite (sendMessage_open _ w id Hws Hs).
  destruct (JSON_stringify _ _); split; reflexivity.
Qed.

(** When a pong timeout fires, the current socket is closed. *)
Lemma pong_timeout_closes w id :
  ws w = Some id -> socket_state w id = Some OPEN ->
  socket_state (pong_timeout_callback w) id = Some CLOSING.
Proof.
  intros Hws Hs. unfold pong_timeout_callback, ws_close, socket_state in *.
  rewrite Hws. simpl. rewrite list_lookup_alter. case_decide; [|congruence].
  destruct (sockets w !! id) as [s|]; [|discriminate].
  simpl in *. injection Hs as Hs. unfold close_socket. rewrite Hs. reflexivity.
Qed.

(** So a pong that comes after the next ping cancels the timeout of that
    ping and leaves the earlier one pending; its handle is lost, and neither
    a later pong nor [stopHeartbeat] can cancel it. *)
Lemma late_pong_misses_first_timeout w a :
  isConnected w = true -> heartbeatTimeoutTimer w = Some a -> a <> nextTimer w ->
  let w' := handlePong (heartbeat_callback w) in
  heartbeatTimeoutTimer w' = None
  /\ filter (fun t => t_id t = a) (timers w') = filter (fun t => t_id t = a) (timers w).
Proof.
  intros Hc Ha Hne w'.
  destruct (ping_keeps_pending_timeout w Hc) as (Ht & Hh).
  destruct (handlePong_cancels (heartbeat_callback w) (nextTimer w) Hh) as (Ht' & Hh').
  split; [exact Hh'|]. unfold w'. rewrite Ht', Ht.
  rewrite filter_app, filter_cons, filter_nil. simpl.
  rewrite decide_False by (intros H; apply H; reflexivity).
  rewrite app_nil_r. clear Ht Ht'.
  induction (timers w) as [|t l IH]; [reflexivity|].
  rewrite !filter_cons. destruct (decide (t_id t <> nextTimer w)) as [Hk|Hk].
  - rewrite filter_cons. destruct (decide (t_id t = a)); [f_equal|]; exact IH.
  - rewrite decide_False by (intros Hta; apply Hk; congruence). exact IH.
Qed.

(** C4 on the code.  In [slow_pong_run] the pong arrives 16.9 s after the
    first ping, inside its 30 s window, and yet the channel is forcibly closed
    at 45.1 s: the second ping (30.1 s) overwrote the handle of the first
    ping's timeout, the pong cancelled the second timeout only, and the first
    one fires.  The close event that follows puts the client in
    [reconnecting].  The outcome is the same when the interval's third tick is
    handled first at 45.1 s. *)
Theorem answered_ping_still_closes :
  realizable slow_pong_run demo_world = true
  /\ wire (run slow_pong_run demo_world) = [(0%nat, "init"); (0%nat, "ping"); (0%nat, "ping")]
  /\ map fst (scheduled (run slow_pong_run demo_world))
     = [(1%nat, ConnectTimeoutCb); (2%nat, HeartbeatCb); (3%nat, PongTimeoutCb);
        (4%nat, PongTimeoutCb)]
  /\ map t_id (timers (run (take 5 slow_pong_run) demo_world)) = [2%nat; 3%nat]
  /\ socket_state (run (take 5 slow_pong_run) demo_world) 0 = Some OPEN
  /\ socket_state (run slow_pong_run demo_world) 0 = Some CLOSING
  /\ state (connectionStatus (run (slow_pong_run ++ [(45110, SockClose 0)%Q]) demo_world))
     = Reconnecting
  /\ realizable slow_pong_run_tick_first demo_world = true
  /\ socket_state (run slow_pong_run_tick_first demo_world) 0 = Some CLOSING.
Proof. vm_compute. repeat split; reflexivity. Qed.

(** ** Facts about the progress interpreter *)

Lemma prefix_trans b a s :
  String.prefix b a = true -> String.prefix a s = true -> String.prefix b s = true.
Proof.
  revert a s. induction b as [|c b IH]; intros a s; [destruct s; reflexivity|].
  destruct a as [|c1 a]; [discriminate|]. destruct s as [|c2 s]; [discriminate|].
  simpl. destruct (ascii_dec c c1) as [->|]; [|discriminate].
  destruct (ascii_dec c1 c2) as [->|]; [|discriminate]. apply IH.
Qed.

Lemma includes_tail c s n :
  Progress.includes s n = true -> Progress.includes (String c s) n = true.
Proof. intros H. simpl. rewrite H. apply orb_true_r. Qed.

Lemma prefix_includes a s b :
  String.prefix a s = true -> Progress.includes a b = true -> Progress.includes s b = true.
Proof.
  revert s. induction a as [|c a IH]; intros s Hp Hi.
  - simpl in Hi. rewrite orb_false_r in Hi. destruct b; [|discriminate].
    destruct s; reflexivity.
  - destruct s as [|c' s]; [discriminate|]. simpl in Hp.
    destruct (ascii_dec c c') as [->|]; [|discriminate].
    change (Progress.includes (String c' a) b)
      with (String.prefix b (String c' a) || Progress.includes a b) in Hi.
    apply orb_true_iff in Hi as [Hi|Hi].
    + change (Progress.includes (String c' s) b)
        with (String.prefix b (String c' s) || Progress.includes s b).
      rewrite (prefix_trans b (String c' a) (String c' s) Hi); [reflexivity|].
      simpl. destruct (ascii_dec c' c'); [exact Hp | congruence].
    + apply includes_tail, IH; assumption.
Qed.

(** A text that contains [a] contains whatever [a] contains. *)
Lemma includes_trans s a b :
  Progress.includes s a = true -> Progress.includes a b = true -> Progress.includes s b = true.
Proof.
  intros Hs Ha. induction s as [|c s IH].
  - simpl in Hs. rewrite orb_false_r in Hs. eapply prefix_includes; eassumption.
  - change (Progress.includes (String c s) a)
      with (String.prefix a (String c s) || Progress.includes s a) in Hs.
    apply orb_true_iff in Hs as [Hs|Hs].
    + eapply prefix_includes; eassumption.
    + apply includes_tail, IH, Hs.
Qed.

(** The test for the completion of the pre-flight checks is never reached: a
    line that carries its marker carries "pre-flight" and is taken by the
    first test. *)
Lemma preflight_complete_shadowed m :
  Progress.includes m "✅ All pre-flight checks passed" = true ->
  Progress.parseBackendLog m
  = Progress.milestone Progress.repo_access Progress.in_progress
      ["Verifying GCP environment..."] 1.
Proof.
  intros H.
  assert (Hp : Progress.includes m "pre-flight" = true).
  { eapply includes_trans; [exact H|]. vm_compute. reflexivity. }
  unfold Progress.parseBackendLog. rewrite Hp, orb_true_r. reflexivity.
Qed.

Ltac chain_step :=
  match goal with
  | |- (_ /\ exists u, (if ?c then _ else _) = _ /\ _) \/ _ =>
      destruct c;
      [ left; split; [reflexivity|]; eexists; split; [reflexivity|]; split; discriminate
      | simpl orb ]
  end.

(** Either one of the milestone tests takes the line, and the result is that
    milestone; or none does, and the result depends on the error markers
    only. *)
Lemma parse_cases m :
  (matches_milestone m = true
   /\ exists u, Progress.parseBackendLog m = Some u
                /\ Progress.status u <> Progress.failed
                /\ Progress.stage u <> Progress.unknown)
  \/ (matches_milestone m = false
      /\ Progress.parseBackendLog m
         = if has_error_marker m then Some (error_update m) else None).
Proof.
  unfold Progress.parseBackendLog, matches_milestone, has_error_marker. cbv zeta.
  repeat match goal with
         | |- context [Progress.includes m ?l] =>
             generalize (Progress.includes m l); intro
         end.
  generalize (Progress.match_framework_detected m); intro.
  do 22 chain_step.
  right. split; reflexivity.
Qed.

(** ** C5: the error classification *)

(** C5, as the code has it.  A line that carries an error marker is
    classified as an error (stage [unknown], status [error], the line as
    message, progress 0) when no milestone test matches it; when a milestone
    test matches it too, the milestone is returned and its status is not
    [error]: the milestone tests come first. *)
Theorem error_classification (m : string) :
  has_error_marker m = true ->
  (matches_milestone m = false -> Progress.parseBackendLog m = Some (error_update m))
  /\ (matches_milestone m = true ->
      exists u, Progress.parseBackendLog m = Some u
                /\ Progress.status u <> Progress.failed).
Proof.
  intros He. destruct (parse_cases m) as [(Hm & u & Hu & Hs & _)|(Hm & Hp)].
  - split; [rewrite Hm; discriminate|]. intros _. eauto.
  - split; [|rewrite Hm; discriminate]. intros _. rewrite Hp, He. reflexivity.
Qed.

Lemma error_classification_witness :
  Progress.parseBackendLog "[ERROR] build exploded"
  = Some (error_update "[ERROR] build exploded").
Proof.
  apply (error_classification "[ERROR] build exploded"); vm_compute; reflexivity.
Defined.

(** A line with an error marker that a milestone test matches is not
    classified as an error. *)
Lemma error_marker_shadowed :
  ~ (has_error_marker "Error: Security scan failed" = true ->
     exists u, Progress.parseBackendLog "Error: Security scan failed" = Some u
               /\ Progress.status u = Progress.failed).
Proof.
  intros H. destruct H as (u & Hu & Hs); [vm_compute; reflexivity|].
  vm_compute in Hu. injection Hu as <-. discriminate.
Qed.

(** ** C6: after [disconnect()] *)

(** [disconnect()] cancels the retry whose handle the client holds, and that
    one only. *)
Lemma disconnect_cancels_held_retry w :
  state (connectionStatus (disconnect w)) = Disconnected
  /\ isIntentionalClose (disconnect w) = true
  /\ ws (disconnect w) = None
  /\ reconnectTimer (disconnect w) = None.
Proof.
  unfold disconnect, cleanup, stopHeartbeat. simpl.
  repeat case_match; simpl in *; simplify_eq; repeat split; try reflexivity; assumption.
Qed.

(** C6 on the code.  A connection attempt times out: the timeout callback
    closes the socket and schedules a retry (timer 2), and the socket's close
    event schedules a second one (timer 3), whose handle replaces the first.
    [disconnect()] then cancels timer 3 only.  The client is [disconnected],
    the close is marked intentional, and timer 2 is still pending; when it
    fires, [connect()] runs: the flag is reset, the status is [connecting]
    and a new socket is being opened, with no call of [connect()] by the
    caller. *)
Theorem retry_survives_disconnect :
  realizable (timeout_then_disconnect ++ [orphan_retry]) demo_world = true
  /\ (let w := run timeout_then_disconnect demo_world in
      map fst (scheduled w)
      = [(1%nat, ConnectTimeoutCb); (2%nat, ReconnectCb); (3%nat, ReconnectCb)]
      /\ state (connectionStatus w) = Disconnected
      /\ isIntentionalClose w = true
      /\ ws w = None
      /\ reconnectTimer w = None
      /\ map (fun t => (t_id t, t_cb t)) (timers w) = [(2%nat, ReconnectCb)])
  /\ (let w' := run (timeout_then_disconnect ++ [orphan_retry]) demo_world in
      state (connectionStatus w') = Connecting
      /\ isIntentionalClose w' = false
      /\ ws w' = Some 1%nat
      /\ socket_state w' 1 = Some CONNECTING).
Proof. vm_compute. repeat split; reflexivity. Qed.

(** ** C7: the session identity *)

Lemma generateSessionId_nonempty stamp rnd : generateSessionId stamp rnd <> "".
Proof. discriminate. Qed.

Lemma getSessionId_persisted stamp rnd (st : gmap string string) :
  (getSessionId stamp rnd st).2 !! SESSION_ID_KEY = Some (getSessionId stamp rnd st).1
  /\ (getSessionId stamp rnd st).1 <> "".
Proof.
  unfold getSessionId. destruct (st !! SESSION_ID_KEY) as [v|] eqn:E.
  - case_bool_decide as Hv; simpl.
    + split; [apply lookup_insert_eq | discriminate].
    + split; [exact E | exact Hv].
  - simpl. split; [apply lookup_insert_eq | discriminate].
Qed.

Lemma open_or_not ev : (exists id, ev = SockOpen id) \/ (forall id, ev <> SockOpen id).
Proof. destruct ev; try (right; discriminate). left. eauto. Qed.

Lemma step_fixed ev w : fixed (step ev w) = fixed w.
Proof.
  destruct (open_or_not ev) as [[id ->]|Hne].
  - destruct (decide (socket_state w id = Some CONNECTING)) as [Hc|Hc].
    + apply (calm_fixed _ _ (step_open_calm id w Hc)).
    + unfold step, enabled. rewrite bool_decide_eq_false_2 by exact Hc. reflexivity.
  - apply track_fixed, step_track, Hne.
Qed.

Lemma run_fixed evs w : fixed (run evs w) = fixed w.
Proof.
  revert w. induction evs as [|te evs IH]; intros w; [reflexivity|].
  rewrite run_cons, IH. unfold step_at. rewrite step_fixed. reflexivity.
Qed.

Lemma step_at_open te w :
  opens te w = true ->
  reconnectAttempts (step_at te w) = 0%nat /\ retry_count (step_at te w) = retry_count w.
Proof.
  destruct te as [t ev]. unfold opens, step_at. simpl.
  destruct ev; try discriminate. intros Hc. apply bool_decide_eq_true in Hc.
  pose proof (step_open_calm id (set_now t w) Hc) as H.
  split; [exact (calm_attempts _ _ H) | exact (calm_retry_count _ _ H)].
Qed.

Lemma step_at_track te w :
  opens te w = false -> track_view (step_at te w) = track_view w.
Proof.
  destruct te as [t ev]. unfold opens, step_at. simpl. intros Ho.
  destruct (open_or_not ev) as [[id ->]|Hne].
  - apply bool_decide_eq_false in Ho.
    unfold step, enabled.
    rewrite (bool_decide_eq_false_2 (socket_state (set_now t w) id = Some CONNECTING))
      by exact Ho.
    reflexivity.
  - rewrite step_track; [reflexivity | exact Hne].
Qed.

(** The attempt counter is the number of retries scheduled since the channel
    last opened. *)
Lemma run_attempts evs w base :
  (reconnectAttempts w + base = retry_count w)%nat ->
  (reconnectAttempts (run evs w) + retries_at_last_open evs w base
   = retry_count (run evs w))%nat.
Proof.
  revert w base. induction evs as [|te evs IH]; intros w base Hb; [exact Hb|].
  rewrite run_cons. simpl retries_at_last_open. apply IH.
  destruct (opens te w) eqn:Ho.
  - destruct (step_at_open te w Ho) as (-> & _). reflexivity.
  - pose proof (f_equal snd (step_at_track te w Ho)) as H. simpl in H. lia.
Qed.

Lemma new_client_fixed h u e st t0 o :
  let w0 := new_WebSocketClient h u e st t0 o in
  host w0 = h
  /\ sessionId w0 = (getSessionId (session_stamp e) (session_rnd e) st).1
  /\ localStorage w0 = (getSessionId (session_stamp e) (session_rnd e) st).2
  /\ reconnectAttempts w0 = 0%nat /\ retry_count w0 = 0%nat.
Proof.
  unfold new_WebSocketClient. destruct (getSessionId _ _ _). simpl. auto.
Qed.




(** ** C8: transport errors *)




(** ** C9: progress along a successful run *)

(** C9 on the code.  Along the log of a successful run the values returned are
    1, 1, 2, 1, 5, 15, 20, ..., 100: the fourth line, the completion of the
    pre-flight checks, is taken by the first test and yields progress 1 with
    status in-progress instead of 3 with status success, so the sequence
    decreases there; without that line it never decreases; the last line
    yields 100. *)
Theorem successful_run_progress :
  map Qred (progress_values successful_run)
  = [1; 1; 2; 1; 5; 15; 20; 25; 30; 35; 40; 48; 50; 55; 55; 65; 145 # 2; 80; 85; 90;
     95; 100]%Q
  /\ nondecreasing (progress_values successful_run) = false
  /\ (fun u => (Progress.status u, Progress.progress u))
       <$> Progress.parseBackendLog "✅ All pre-flight checks passed"
     = Some (Progress.in_progress, 1%Q)
  /\ nondecreasing
       (progress_values (filter (fun l => l <> "✅ All pre-flight checks passed")
                           successful_run)) = true
  /\ Progress.progress <$> Progress.parseBackendLog "🎉 Deployment complete"
     = Some 100%Q.
Proof. vm_compute. repeat split; reflexivity. Qed.

(** ** C10: the configured heartbeat timing *)

(** Every method commutes with a change of [config.heartbeat.interval] and
    [config.heartbeat.timeout]: none of them reads these two fields. *)
Section Retime.
Variables i t : Q.
Local Abbreviation rt := (with_heartbeat_timing i t).

(** Reading any field but [config], or [config] through anything but the two
    timing fields, ignores the change. *)
Ltac rt_read :=
  repeat match goal with
         | |- context [ws (rt ?w)] =>
             change (ws (rt w)) with (ws w)
         | |- context [socket_state (rt ?w)] =>
             change (socket_state (rt w)) with (socket_state w)
         | |- context [isConnected (rt ?w)] =>
             change (isConnected (rt w)) with (isConnected w)
         | |- context [messageQueue (rt ?w)] =>
             change (messageQueue (rt w)) with (messageQueue w)
         | |- context [heartbeatTimer (rt ?w)] =>
             change (heartbeatTimer (rt w)) with (heartbeatTimer w)
         | |- context [heartbeatTimeoutTimer (rt ?w)] =>
             change (heartbeatTimeoutTimer (rt w)) with (heartbeatTimeoutTimer w)
         | |- context [reconnectTimer (rt ?w)] =>
             change (reconnectTimer (rt w)) with (reconnectTimer w)
         | |- context [reconnectAttempts (rt ?w)] =>
             change (reconnectAttempts (rt w)) with (reconnectAttempts w)
         | |- context [isIntentionalClose (rt ?w)] =>
             change (isIntentionalClose (rt w)) with (isIntentionalClose w)
         | |- context [connectionStatus (rt ?w)] =>
             change (connectionStatus (rt w)) with (connectionStatus w)
         | |- context [localStorage (rt ?w)] =>
             change (localStorage (rt w)) with (localStorage w)
         | |- context [host (rt ?w)] =>
             change (host (rt w)) with (host w)
         | |- context [now (rt ?w)] =>
             change (now (rt w)) with (now w)
         | |- context [sockets (rt ?w)] =>
             change (sockets (rt w)) with (sockets w)
         | |- context [sessionId (rt ?w)] =>
             change (sessionId (rt w)) with (sessionId w)
         | |- context [instanceId (rt ?w)] =>
             change (instanceId (rt w)) with (instanceId w)
         | |- context [enabled ?x (rt ?w)] =>
             change (enabled x (rt w)) with (enabled x w)
         | |- context [find_timer ?x (rt ?w)] =>
             change (find_timer x (rt w)) with (find_timer x w)
         | |- context [url (config (rt ?w))] =>
             change (url (config (rt w))) with (url (config w))
         | |- context [reconnect (config (rt ?w))] =>
             change (reconnect (config (rt w))) with (reconnect (config w))
         | |- context [messageQueueCfg (config (rt ?w))] =>
             change (messageQueueCfg (config (rt w))) with (messageQueueCfg (config w))
         | |- context [hb_enabled (heartbeat (config (rt ?w)))] =>
             change (hb_enabled (heartbeat (config (rt w))))
               with (hb_enabled (heartbeat (config w)))
         end.

Lemma rt_setTimeout cb d w :
  setTimeout cb d (rt w) = ((setTimeout cb d w).1, rt (setTimeout cb d w).2).
Proof. reflexivity. Qed.

Lemma rt_updateConnectionStatus s e a w :
  updateConnectionStatus s e a (rt w) = rt (updateConnectionStatus s e a w).
Proof. reflexivity. Qed.

Lemma rt_sendMessage m w :
  sendMessage m (rt w) = ((sendMessage m w).1, rt (sendMessage m w).2).
Proof. unfold sendMessage. rt_read. repeat case_match; reflexivity. Qed.

Lemma rt_forEach_send q w :
  forEach_send q (rt w) = ((forEach_send q w).1, rt (forEach_send q w).2).
Proof.
  revert w. induction q as [|m q IH]; intros w; [reflexivity|].
  simpl. rewrite rt_sendMessage.
  destruct (sendMessage m w) as [[b|e] w']; simpl; [apply IH | reflexivity].
Qed.

Lemma rt_flushMessageQueue w :
  flushMessageQueue (rt w) = ((flushMessageQueue w).1, rt (flushMessageQueue w).2).
Proof.
  unfold flushMessageQueue. rt_read. case_match; [reflexivity|].
  apply (rt_forEach_send _ (set_messageQueue [] w)).
Qed.

Lemma rt_stopHeartbeat w : stopHeartbeat (rt w) = rt (stopHeartbeat w).
Proof.
  unfold stopHeartbeat. rt_read.
  destruct (heartbeatTimer w); rt_read; simpl;
    destruct (heartbeatTimeoutTimer w); reflexivity.
Qed.

Lemma rt_startHeartbeat w : startHeartbeat (rt w) = rt (startHeartbeat w).
Proof. unfold startHeartbeat. rewrite rt_stopHeartbeat. reflexivity. Qed.

Lemma rt_heartbeat_callback w : heartbeat_callback (rt w) = rt (heartbeat_callback w).
Proof.
  unfold heartbeat_callback. rt_read. case_match; [|reflexivity].
  rewrite rt_sendMessage. destruct (sendMessage _ w) as [[b|e] w']; reflexivity.
Qed.

Lemma rt_handleReconnect w : handleReconnect (rt w) = rt (handleReconnect w).
Proof.
  unfold handleReconnect. rt_read. repeat case_match; try reflexivity.
  unfold setTimeout in *. simplify_eq. reflexivity.
Qed.

Lemma rt_connect w : connect (rt w) = rt (connect w).
Proof.
  unfold connect. rt_read.
  destruct (ws w ≫= socket_state w) as [[]|]; try reflexivity.
  all: cbv zeta; change (set_isIntentionalClose false (rt w))
                   with (rt (set_isIntentionalClose false w));
       rewrite rt_updateConnectionStatus; rt_read;
       destruct (WebSocket_ctor _ _); try reflexivity;
       rewrite <- rt_handleReconnect; reflexivity.
Qed.

Lemma rt_connect_timeout_callback w :
  connect_timeout_callback (rt w) = rt (connect_timeout_callback w).
Proof.
  unfold connect_timeout_callback. rt_read.
  destruct (state (connectionStatus w)); try reflexivity.
  destruct (ws w); rewrite <- rt_handleReconnect; reflexivity.
Qed.

Lemma rt_handleOpen w : handleOpen (rt w) = ((handleOpen w).1, rt (handleOpen w).2).
Proof.
  unfold handleOpen. cbv zeta.
  change (set_reconnectAttempts 0 (rt w)) with (rt (set_reconnectAttempts 0 w)).
  rewrite rt_updateConnectionStatus. rt_read. rewrite rt_sendMessage.
  destruct (sendMessage _ _) as [[b|e] w']; simpl; [|reflexivity]. rt_read.
  destruct (hb_enabled (heartbeat (config w'))).
  - rewrite rt_startHeartbeat. rt_read.
    destruct (messageQueue (startHeartbeat w')); [reflexivity|].
    apply rt_flushMessageQueue.
  - rt_read. destruct (messageQueue w'); [reflexivity|]. apply rt_flushMessageQueue.
Qed.

Lemma rt_handleClose w : handleClose (rt w) = rt (handleClose w).
Proof.
  unfold handleClose. cbv zeta. rewrite rt_stopHeartbeat. rt_read.
  destruct (isIntentionalClose (stopHeartbeat w)); simpl negb; cbv iota; [reflexivity|].
  rewrite <- rt_handleReconnect. reflexivity.
Qed.

Lemma rt_cleanup w : cleanup (rt w) = rt (cleanup w).
Proof.
  unfold cleanup. cbv zeta. rewrite rt_stopHeartbeat. rt_read.
  destruct (reconnectTimer (stopHeartbeat w)); simpl;
    destruct (ws (stopHeartbeat w)); reflexivity.
Qed.

Lemma rt_handleMessage p w : handleMessage p (rt w) = rt (handleMessage p w).
Proof.
  unfold handleMessage, handlePong. destruct p; [|reflexivity].
  case_match; [|reflexivity]. rt_read. destruct (heartbeatTimeoutTimer w); reflexivity.
Qed.

Lemma rt_run_callback cb w : run_callback cb (rt w) = rt (run_callback cb w).
Proof.
  destruct cb; simpl.
  - apply rt_connect_timeout_callback.
  - apply rt_connect.
  - apply rt_heartbeat_callback.
  - unfold pong_timeout_callback. rt_read. destruct (ws w); reflexivity.
Qed.

Lemma rt_step ev w : step ev (rt w) = rt (step ev w).
Proof.
  unfold step. rt_read. destruct (negb (enabled ev w)); [reflexivity|].
  destruct ev; try reflexivity.
  - apply rt_connect.
  - unfold disconnect.
    change (set_isIntentionalClose true (rt w)) with (rt (set_isIntentionalClose true w)).
    rewrite rt_cleanup. reflexivity.
  - unfold destroy.
    change (set_isIntentionalClose true (rt w)) with (rt (set_isIntentionalClose true w)).
    rewrite rt_cleanup. reflexivity.
  - rewrite rt_sendMessage. reflexivity.
  - change (set_readyState id OPEN (rt w)) with (rt (set_readyState id OPEN w)).
    rewrite rt_handleOpen. simpl snd.
    generalize (handleOpen (set_readyState id OPEN w)).2; intros w'.
    destruct (sockets w !! id ≫= s_clearOnOpen); reflexivity.
  - apply rt_handleMessage.
  - change (set_readyState id CLOSED (rt w)) with (rt (set_readyState id CLOSED w)).
    apply rt_handleClose.
  - rt_read. destruct (find_timer tid w) as [x|]; [|reflexivity].
    rewrite <- rt_run_callback. f_equal. unfold rearm. destruct (t_period x); reflexivity.
Qed.

Lemma rt_run evs w : run evs (rt w) = rt (run evs w).
Proof.
  revert w. induction evs as [|te evs IH]; intros w; [reflexivity|].
  simpl. change (step_at te (rt w)) with (step te.2 (rt (set_now te.1 w))).
  rewrite rt_step. apply IH.
Qed.
End Retime.

Lemma behaviour_retimed i t w : behaviour (with_heartbeat_timing i t w) = behaviour w.
Proof. reflexivity. Qed.

Lemma retimed_behaviour w :
  w = with_heartbeat_timing (interval (heartbeat (config w)))
        (timeout (heartbeat (config w))) (behaviour w).
Proof. destruct w as [? ? ? ? [? ? [? ? ?] ?]]. reflexivity. Qed.


